(** * simpleais.tools: streaming aggregation, binning and rendering

    A shallow embedding of [simpleais/tools.py] and the properties of its
    aggregators ([MaxMin], [GeoInfo], [SenderInfo], [SentencesInfo]), of
    [Bucketer] and [DensityMap], and of the broken-pipe wrapper
    [wild_disregard_for].

    Python values are modelled as follows: [int] is [Z], [float] is the
    IEEE 754 binary64 type [float] of the kernel, [str] is [string] (one
    [ascii] per code point below 256), [None]-or-value is [option], a
    [dict] is a [gmap], a [list] is a [list]; a raised exception is the
    [Raise] alternative of [result]. *)

From Stdlib Require Import ZArith List String Ascii Floats Lia Bool.
From stdpp Require Import base option list gmap strings sorting pretty.

#[local] Open Scope Z_scope.

(** ** Exceptions *)

(** The exceptions the modelled code can raise.  [SystemExit] is what the
    builtin [exit(code)] raises. *)
Inductive exn : Type :=
  | AttributeError
  | TypeError
  | ValueError
  | IndexError
  | ZeroDivisionError
  | OverflowError
  | KeyError
  | BrokenPipeError
  | SystemExit (code : Z).

#[global] Instance exn_eq_dec : EqDecision exn.
Proof. solve_decision. Defined.

Inductive result (A : Type) : Type :=
  | Ok (a : A)
  | Raise (e : exn).
Arguments Ok {A} a.
Arguments Raise {A} e.

#[global] Instance result_ret : MRet result := fun A a => Ok a.
#[global] Instance result_bind : MBind result := fun A B f m =>
  match m with
  | Ok a => f a
  | Raise e => Raise e
  end.

(** Truthiness of an optional value that is truthy whenever present. *)
Definition is_not_None {A} (o : option A) : bool :=
  match o with Some _ => true | None => false end.

(** ** Strings *)

(** [str.isspace] on one character (code points below 256). *)
Definition py_isspace (c : ascii) : bool :=
  let n := nat_of_ascii c in
  ((9 <=? n) && (n <=? 13) || (28 <=? n) && (n <=? 32)
   || (n =? 133) || (n =? 160))%nat.

Fixpoint lstrip (s : string) : string :=
  match s with
  | EmptyString => EmptyString
  | String c s' => if py_isspace c then lstrip s' else s
  end.

Definition rstrip (s : string) : string :=
  String.rev (lstrip (String.rev s)).

(** [s.strip()] *)
Definition strip (s : string) : string := rstrip (lstrip s).

(** Truthiness of a string, and of a string that may be [None]. *)
Definition str_truthy (s : string) : bool :=
  match s with EmptyString => false | String _ _ => true end.
Definition opt_str_truthy (o : option string) : bool :=
  match o with Some s => str_truthy s | None => false end.

(** ["{}".format(o)] of a value that may be [None]. *)
Definition format_opt {A} (str_A : A -> string) (o : option A) : string :=
  match o with Some a => str_A a | None => "None" end.

(** Right alignment in a field of [w] characters, as ["{:>ws}"] and
    ["{:wd}"] do. *)
Definition pad_left (w : nat) (s : string) : string :=
  String.concat "" (replicate (w - String.length s) " ") +:+ s.

Definition str_le (a b : string) : Prop := String.leb a b = true.
#[global] Instance str_le_dec : RelDecision str_le.
Proof. intros a b. unfold str_le. apply _. Defined.

(** ** Output

    [print] hands one line to standard output.  A print raises
    [BrokenPipeError] when the stream, passing lines on, finds the
    consumer at the other end of the pipe gone: [remaining] is the number
    of prints before that one ([None]: no print raises), and [written]
    are the lines the prints have handed over.  Which print raises is up
    to the stream.  [print(line, flush=True)], as in
    [print_sentence_source], passes every line on at once: it is the
    first print after the consumer has gone.  A plain [print], as in the
    reports, only fills the buffer of a stream that is a pipe: it is a
    later print, one that makes the stream pass its buffer on, and no
    print at all when the output fits in the buffer. *)
Record sink : Type := Sink { written : list string; remaining : option nat }.

Definition IO (A : Type) : Type := sink -> result A * sink.

#[global] Instance IO_ret : MRet IO := fun A a s => (Ok a, s).
#[global] Instance IO_bind : MBind IO := fun A B f m s =>
  match m s with
  | (Ok a, s') => f a s'
  | (Raise e, s') => (Raise e, s')
  end.

(** A computation that does not print. *)
Definition io_lift {A} (r : result A) : IO A := fun s => (r, s).

Definition print (line : string) : IO unit := fun s =>
  match remaining s with
  | Some O => (Raise BrokenPipeError, s)
  | Some (S n) =>
      (Ok tt, {| written := written s ++ [line]; remaining := Some n |})
  | None => (Ok tt, {| written := written s ++ [line]; remaining := None |})
  end.

(** [for x in l: body(x)] *)
Fixpoint for_each {A} (l : list A) (body : A -> IO unit) : IO unit :=
  match l with
  | [] => mret tt
  | x :: l' => _ ← body x; for_each l' body
  end.

(** [with wild_disregard_for(e): body] *)
Definition wild_disregard_for {A} (e : exn) (body : IO A) : IO A := fun s =>
  match body s with
  | (Raise e', s') =>
      if decide (e' = e) then (Raise (SystemExit 0), s') else (Raise e', s')
  | r => r
  end.

(** The status the interpreter leaves with when its cleanup succeeds: 0
    after a normal return, the code of an uncaught [SystemExit], 1 after
    any other uncaught exception. *)
Definition exit_status {A} (r : result A) : Z :=
  match r with
  | Ok _ => 0
  | Raise (SystemExit code) => code
  | Raise _ => 1
  end.

(** The cleanup of the interpreter flushes standard output.  With a
    consumer that took [taken] lines and went away ([None]: it stays),
    the flush fails when the prints have handed over more lines than
    that: the others are still in the buffer of the stream.  A line whose
    print raised is not counted. *)
Definition flush_on_exit_fails (taken : option nat) (s : sink) : bool :=
  match taken with
  | Some t => (t <? length (written s))%nat
  | None => false
  end.

(** The status the process ends with ([sys.exit], Python 3.6 and later):
    120 when the flush of the cleanup fails, whatever the program ended
    with. *)
Definition process_status {A} (taken : option nat) (run : result A * sink)
    : Z :=
  if flush_on_exit_fails taken (snd run) then 120
  else exit_status (fst run).

(** The shape of a computation that only prints: started with [w]
    handed over and a stream at which no print raises, it hands over
    some [lines] and ends in [r]; with a stream that takes [k] more
    prints, it does the same when [k] is enough, and otherwise stops at
    the print that raises, with [BrokenPipeError], the first [k] of the
    lines handed over. *)
Definition prints {A} (m : IO A) : Prop :=
  forall w, exists r lines,
    m (Sink w None) = (r, Sink (w ++ lines) None)
    /\ forall k : nat,
         m (Sink w (Some k))
         = if decide (length lines <= k)%nat
           then (r, Sink (w ++ lines) (Some (k - length lines)%nat))
           else (Raise BrokenPipeError, Sink (w ++ take k lines) (Some 0%nat)).

(** ** Ordered values

    [MaxMin] only compares its values with [<] and [>]; any type with
    these two operators can be fed to it. *)
Class PyOrd (V : Type) := py_lt : V -> V -> bool.
Definition py_gt {V} `{PyOrd V} (a b : V) : bool := py_lt b a.

#[global] Instance Z_PyOrd : PyOrd Z := Z.ltb.
#[global] Instance float_PyOrd : PyOrd float := PrimFloat.ltb.

(** ** class MaxMin *)
Module MaxMin.
Section Defs.
Context {V : Type} `{PyOrd V}.

Record t : Type := Build { min : option V; max : option V }.

(** [__init__(self, starting=None)] *)
Definition init (starting : option V) : t :=
  {| min := starting; max := starting |}.

(** [valid]: the source tests [self.min] twice. *)
Definition valid (self : t) : bool :=
  is_not_None (min self) && is_not_None (min self).

(** [add]: comparing a value with [None] raises [TypeError]. *)
Definition add (self : t) (value : V) : result t :=
  if negb (valid self) then Ok {| min := Some value; max := Some value |}
  else
    match max self with
    | None => Raise TypeError
    | Some mx =>
        let self1 :=
          if py_gt value mx then {| min := min self; max := Some value |}
          else self in
        match min self1 with
        | None => Raise TypeError
        | Some mn =>
            Ok (if py_lt value mn
                then {| min := Some value; max := max self1 |}
                else self1)
        end
    end.

(** Feeding a sequence of values, one [add] per value, in order. *)
Fixpoint add_all (self : t) (values : list V) : result t :=
  match values with
  | [] => Ok self
  | v :: vs => self' ← add self v; add_all self' vs
  end.
End Defs.
Arguments t V : clear implicits.
End MaxMin.

(** What it means for [m] to be the least, resp. greatest, of the values
    of [l]: it is one of them and none of them is below, resp. above, it. *)
Definition is_min {V} `{PyOrd V} (m : V) (l : list V) : Prop :=
  m ∈ l /\ forall x, x ∈ l -> py_lt x m = false.
Definition is_max {V} `{PyOrd V} (m : V) (l : list V) : Prop :=
  m ∈ l /\ forall x, x ∈ l -> py_lt m x = false.

(** ** class GeoInfo *)
Module GeoInfo.
Section Defs.
Context {V : Type} `{PyOrd V}.

Record t : Type := Build { lon : MaxMin.t V; lat : MaxMin.t V }.

Definition init : t :=
  {| lon := MaxMin.init None; lat := MaxMin.init None |}.

(** [add(point)]: [point[0]] goes to [lon], [point[1]] to [lat]. *)
Definition add (self : t) (point : V * V) : result t :=
  lon' ← MaxMin.add (lon self) (fst point);
  lat' ← MaxMin.add (lat self) (snd point);
  mret {| lon := lon'; lat := lat' |}.

Definition valid (self : t) : bool :=
  MaxMin.valid (lon self) && MaxMin.valid (lat self).

(** [report(indent)]; [str_V] is [str] on the values. *)
Definition report (str_V : V -> string) (self : t) (indent : string)
    : IO unit :=
  _ ← print (indent +:+ "    top left: "
             +:+ format_opt str_V (MaxMin.max (lat self)) +:+ ", "
             +:+ format_opt str_V (MaxMin.min (lon self)));
  print (indent +:+ "bottom right: "
         +:+ format_opt str_V (MaxMin.min (lat self)) +:+ ", "
         +:+ format_opt str_V (MaxMin.max (lon self))).
End Defs.
Arguments t V : clear implicits.
End GeoInfo.

(** ** Python builtins on lists, integers and floats *)

(** [range(n)] *)
Definition py_range (n : Z) : list Z := seqZ 0 n.

(** [max(l)] of a list of integers: [ValueError] on an empty list. *)
Definition py_max (l : list Z) : result Z :=
  match l with
  | [] => Raise ValueError
  | x :: xs => Ok (fold_left Z.max xs x)
  end.

(** The position [l[i]] denotes: a negative index counts from the end,
    anything outside [-len, len) is an [IndexError]. *)
Definition py_index (len i : Z) : result nat :=
  let j := if i <? 0 then i + len else i in
  if (0 <=? j) && (j <? len) then Ok (Z.to_nat j) else Raise IndexError.

Definition py_getitem {A} (l : list A) (i : Z) : result A :=
  j ← py_index (Z.of_nat (length l)) i;
  match l !! j with
  | Some a => Ok a
  | None => Raise IndexError
  end.

Definition py_setitem {A} (l : list A) (i : Z) (a : A) : result (list A) :=
  j ← py_index (Z.of_nat (length l)) i;
  Ok (<[j := a]> l).

(** [s * n] on a string: empty when [n <= 0]. *)
Definition str_repeat (s : string) (n : Z) : string :=
  String.concat "" (replicate (Z.to_nat n) s).

(** [str(i)] of an integer: its decimal digits. *)
Definition str_int (i : Z) : string := pretty i.

(** The binary64 value nearest to an integer (ties to even). *)
Definition Z2float (z : Z) : float :=
  SF2Prim (binary_normalize prec emax z 0 false).

(** The implicit [int -> float] conversion of mixed arithmetic:
    [OverflowError] when the integer is beyond the binary64 range. *)
Definition float_of_int (z : Z) : result float :=
  let f := Z2float z in
  if is_infinity f then Raise OverflowError else Ok f.

(** [int(x)] of a float: truncation towards zero. *)
Definition int_of_float (x : float) : result Z :=
  match Prim2SF x with
  | S754_zero _ => Ok 0
  | S754_infinity _ => Raise OverflowError
  | S754_nan => Raise ValueError
  | S754_finite s m e =>
      let a := if 0 <=? e then Z.shiftl (Z.pos m) e
               else Z.shiftr (Z.pos m) (- e) in
      Ok (if s then - a else a)
  end.

(** [sys.float_info.epsilon] *)
Definition float_epsilon : float := 0x1p-52%float.

(** ** numpy

    [numpy.linspace] and [numpy.digitize] on float64, after numpy's
    implementation ([numpy/_core/function_base.py],
    [numpy/lib/_function_base_impl.py] and the binary search of
    [npysort/binsearch.cpp]). *)
Module numpy.

(** [linspace(start, stop, num)] with the default [endpoint=True]. *)
Definition linspace (start stop : float) (num : Z) : result (list float) :=
  if num <? 0 then Raise ValueError
  else
    let div := num - 1 in
    let y := Z2float <$> py_range num in
    let delta := (stop - start)%float in
    let y :=
      if 0 <? div then
        let step := (delta / Z2float div)%float in
        if (step =? 0)%float
        then (fun v => (v / Z2float div * delta)%float) <$> y
        else (fun v => (v * step)%float) <$> y
      else (fun v => (v * delta)%float) <$> y in
    let y := (fun v => (v + start)%float) <$> y in
    Ok (if 1 <? num then <[pred (length y) := stop]> y else y).

Inductive monotonicity : Type := increasing | decreasing | neither.

(** The scan of [check_array_monotonic] once the leading run of equal
    values is skipped and the direction is known. *)
Fixpoint still_monotonic (up : bool) (last : float) (a : list float) : bool :=
  match a with
  | [] => true
  | next :: a' =>
      if (if up then (next <? last)%float else (last <? next)%float)
      then false
      else still_monotonic up next a'
  end.

Fixpoint skip_repeated (last : float) (a : list float) : list float :=
  match a with
  | [] => []
  | x :: a' => if (x =? last)%float then skip_repeated last a' else a
  end.

Definition check_array_monotonic (a : list float) : monotonicity :=
  match a with
  | [] => increasing
  | last :: a' =>
      match skip_repeated last a' with
      | [] => increasing
      | next :: rest =>
          if (last <? next)%float
          then (if still_monotonic true next rest then increasing else neither)
          else (if still_monotonic false next rest then decreasing else neither)
      end
  end.

(** The order numpy sorts float64 by: NaN is above everything. *)
Definition npy_lt (a b : float) : bool :=
  (a <? b)%float || (negb (b =? b)%float && (a =? a)%float).

(** [searchsorted(arr, key, side='right')]: binary search between
    [min_idx] and [max_idx]; [fuel] bounds the number of halvings. *)
Fixpoint binsearch_right (fuel : nat) (arr : list float) (key : float)
    (min_idx max_idx : nat) : nat :=
  match fuel with
  | O => min_idx
  | S fuel' =>
      if (min_idx <? max_idx)%nat then
        let mid_idx := (min_idx + (max_idx - min_idx) / 2)%nat in
        match arr !! mid_idx with
        | None => min_idx
        | Some mid_val =>
            if npy_lt key mid_val
            then binsearch_right fuel' arr key min_idx mid_idx
            else binsearch_right fuel' arr key (S mid_idx) max_idx
        end
      else min_idx
  end.

Definition searchsorted_right (arr : list float) (key : float) : nat :=
  binsearch_right (S (length arr)) arr key 0 (length arr).

(** [digitize(x, bins)] with the default [right=False]. *)
Definition digitize (x : float) (bins : list float) : result Z :=
  match check_array_monotonic bins with
  | neither => Raise ValueError
  | decreasing =>
      Ok (Z.of_nat (length bins)
          - Z.of_nat (searchsorted_right (reverse bins) x))
  | increasing => Ok (Z.of_nat (searchsorted_right bins x))
  end.
End numpy.

(** ** class Bucketer

    [min_val] and [max_val] are floats here; an [int] passed for them
    (as in [Bucketer(0, 10, 5)]) reaches [numpy.linspace] and is
    converted to the same binary64 value. *)
Module Bucketer.

Record t : Type := Build {
  min_val : float;
  max_val : float;
  bucket_count : Z;
  max_buckets : Z;
  bins : list float
}.

(** [__init__(self, min_val, max_val, bucket_count)] *)
Definition init (min_val max_val : float) (bucket_count : Z) : result t :=
  bins ←
    (if (min_val =? max_val)%float
     then numpy.linspace (min_val - 1)%float (max_val + 1)%float
            (bucket_count + 1)
     else numpy.linspace min_val (max_val + float_epsilon)%float
            (bucket_count + 1));
  mret {| min_val := min_val; max_val := max_val;
          bucket_count := bucket_count; max_buckets := bucket_count - 1;
          bins := bins |}.

Definition bucket (self : t) (value : float) : result Z :=
  d ← numpy.digitize value (bins self);
  let result := d - 1 in
  if max_buckets self <? result then Ok (max_buckets self) else Ok result.
End Bucketer.

(** Edges in ascending order: each one is at most the next. *)
Fixpoint ascending (l : list float) : bool :=
  match l with
  | a :: (b :: _) as l' => (a <=? b)%float && ascending l'
  | _ => true
  end.

(** A zero of either sign, or NaN. *)
Definition zero_or_nan (x : float) : Prop :=
  match Prim2SF x with
  | S754_zero _ | S754_nan => True
  | _ => False
  end.

(** ** class DensityMap *)
Module DensityMap.

Record t : Type := Build {
  width : Z;
  height : Z;
  indent : string;
  geo_info : GeoInfo.t float;
  points : list (float * float)
}.

(** [__init__(self, width=60, height=20, indent="")] *)
Definition init (width height : Z) (indent : string) : t :=
  {| width := width; height := height; indent := indent;
     geo_info := GeoInfo.init; points := [] |}.

Definition default : t := init 60 20 "".

Definition add (self : t) (point : float * float) : result t :=
  geo' ← GeoInfo.add (geo_info self) point;
  mret {| width := width self; height := height self;
          indent := indent self; geo_info := geo';
          points := points self ++ [point] |}.

(** [results[y][x] += 1] *)
Definition incr_cell (results : list (list Z)) (y x : Z)
    : result (list (list Z)) :=
  row ← py_getitem results y;
  c ← py_getitem row x;
  row' ← py_setitem row x (c + 1);
  py_setitem results y row'.

(** The body of the loop over [self.points]. *)
Fixpoint count_points (h : Z) (xb yb : Bucketer.t)
    (pts : list (float * float)) (results : list (list Z))
    : result (list (list Z)) :=
  match pts with
  | [] => Ok results
  | (lon, lat) :: pts' =>
      x ← Bucketer.bucket xb lon;
      b ← Bucketer.bucket yb lat;
      let y := h - 1 - b in
      results' ← incr_cell results y x;
      count_points h xb yb pts' results'
  end.

(** An extreme handed to [Bucketer]: arithmetic on [None] is a
    [TypeError]. *)
Definition extreme (o : option float) : result float :=
  match o with Some v => Ok v | None => Raise TypeError end.

Definition to_counts (self : t) : result (list (list Z)) :=
  let results :=
    (fun _ => (fun _ => 0) <$> py_range (width self))
      <$> py_range (height self) in
  if GeoInfo.valid (geo_info self) then
    let g := geo_info self in
    lon_min ← extreme (MaxMin.min (GeoInfo.lon g));
    lon_max ← extreme (MaxMin.max (GeoInfo.lon g));
    xb ← Bucketer.init lon_min lon_max (width self);
    lat_min ← extreme (MaxMin.min (GeoInfo.lat g));
    lat_max ← extreme (MaxMin.max (GeoInfo.lat g));
    yb ← Bucketer.init lat_min lat_max (height self);
    count_points (height self) xb yb (points self) results
  else Ok results.

(** The literal [9.99999], i.e. the binary64 value nearest to it. *)
Definition lit_9_99999 : float := 0x1.3fffeb074a772p+3%float.

(** The local function [value_to_text] of [to_text]. *)
Definition value_to_text (max_count value : Z) : result string :=
  if value =? 0 then Ok " "
  else
    v ← float_of_int value;
    m ← float_of_int max_count;
    if max_count =? 0 then Raise ZeroDivisionError
    else
      i ← int_of_float (lit_9_99999 * v / m)%float;
      Ok (str_int i).

Definition row_to_text (max_count : Z) (row : list Z) : result string :=
  cells ← mapM (value_to_text max_count) row;
  Ok (String.concat "" cells).

Definition border (self : t) : string :=
  indent self +:+ "+" +:+ str_repeat "-" (width self) +:+ "+".

Definition to_text (self : t) : result (list string) :=
  counts ← to_counts self;
  row_maxes ← mapM py_max counts;
  max_count ← py_max row_maxes;
  rows ← mapM (fun row =>
                 txt ← row_to_text max_count row;
                 Ok (indent self +:+ "|" +:+ txt +:+ "|")) counts;
  Ok ([border self] ++ rows ++ [border self]).

(** [show]: the whole grid goes out in one [print]. *)
Definition show (self : t) : IO unit :=
  text ← io_lift (to_text self);
  print (String.concat (String (ascii_of_nat 10) "") text).
End DensityMap.

(** ** Sentences *)

(** Modelled from the spec: the Sentence record of the decoder package
    ([simpleais/__init__.py], which is not part of the modelled file).
    Section 6 gives its interface: [type_id()], access to a field by
    name that yields a value or nothing, and [location()] that yields a
    (longitude, latitude) pair or nothing. *)
Module Sentence.
Record t (V : Type) : Type := Build {
  type_id : Z;
  fields : gmap string string;
  location : option (V * V)
}.
Arguments Build {V}.
Arguments type_id {V}.
Arguments fields {V}.
Arguments location {V}.

(** [sentence[key]] *)
Definition getitem {V} (self : t V) (key : string) : option string :=
  fields self !! key.
End Sentence.

(** A voyage sentence (type 5) of sender [mmsi] with the given ship name
    and destination. *)
Definition voyage (mmsi shipname destination : string) : Sentence.t float :=
  Sentence.Build 5
    (<["mmsi" := mmsi]> (<["shipname" := shipname]>
       (<["destination" := destination]> ∅)))
    None.

(** A position report (type 1) of sender [mmsi] at ([lon], [lat]). *)
Definition position (mmsi : string) (lon lat : float) : Sentence.t float :=
  Sentence.Build 1 (<["mmsi" := mmsi]> ∅) (Some (lon, lat)).

(** The stream of three sentences of section 8: two positions of sender
    A, one voyage sentence of sender B. *)
Definition scenario : list (Sentence.t float) :=
  [position "A" 10 20; position "A" 10.5 20.5; voyage "B" "X" "Y"].

(** ** class Fields *)
Module Fields.
Record t : Type := Build { values : gmap string string }.

Definition init : t := {| values := ∅ |}.

Definition getitem (self : t) (key : string) : result string :=
  match values self !! key with
  | Some v => Ok v
  | None => Raise KeyError
  end.

(** [__setitem__]: [value.strip()] comes first, and [None] has no
    [strip]. *)
Definition setitem (self : t) (key : string) (value : option string)
    : result t :=
  match value with
  | None => Raise AttributeError
  | Some value =>
      let value := strip value in
      if str_truthy key && str_truthy value
         && (0 <? String.length value)%nat
      then Ok {| values := <[key := value]> (values self) |}
      else Ok self
  end.

(** [__iter__]: the keys. *)
Definition iter (self : t) : list string := (map_to_list (values self)).*1.
End Fields.

(** [d[k] += 1] on a [defaultdict(int)] *)
Definition incr `{Countable K} (d : gmap K Z) (k : K) : gmap K Z :=
  <[k := default 0 (d !! k) + 1]> d.

(** [d[k]] on a [defaultdict(int)], read only. *)
Definition count_of `{Countable K} (d : gmap K Z) (k : K) : Z :=
  default 0 (d !! k).

(** ** class SenderInfo *)
Module SenderInfo.
Record t : Type := Build {
  mmsi : option string;
  sentence_count : Z;
  type_counts : gmap Z Z;
  fields : Fields.t
}.

Definition init : t :=
  {| mmsi := None; sentence_count := 0; type_counts := ∅;
     fields := Fields.init |}.

Definition add {V} (self : t) (sentence : Sentence.t V) : result t :=
  let mmsi' :=
    if negb (opt_str_truthy (mmsi self))
    then Sentence.getitem sentence "mmsi" else mmsi self in
  let sentence_count' := sentence_count self + 1 in
  let type_counts' := incr (type_counts self) (Sentence.type_id sentence) in
  if Sentence.type_id sentence =? 5 then
    f1 ← Fields.setitem (fields self) "shipname"
           (Sentence.getitem sentence "shipname");
    f2 ← Fields.setitem f1 "destination"
           (Sentence.getitem sentence "destination");
    Ok {| mmsi := mmsi'; sentence_count := sentence_count';
          type_counts := type_counts'; fields := f2 |}
  else
    Ok {| mmsi := mmsi'; sentence_count := sentence_count';
          type_counts := type_counts'; fields := fields self |}.

(** Feeding a sequence of sentences, one [add] each. *)
Fixpoint add_all {V} (self : t) (sentences : list (Sentence.t V))
    : result t :=
  match sentences with
  | [] => Ok self
  | s :: rest => self' ← add self s; add_all self' rest
  end.

Definition report (self : t) : IO unit :=
  _ ← print (format_opt id (mmsi self) +:+ ":");
  _ ← print ("    sentences: " +:+ str_int (sentence_count self));
  let type_text :=
    (fun t => str_int t +:+ ": " +:+ str_int (count_of (type_counts self) t))
      <$> merge_sort Z.le (map_to_list (type_counts self)).*1 in
  _ ← print ("        types: " +:+ String.concat ", " type_text);
  for_each (merge_sort str_le (Fields.iter (fields self)))
    (fun field =>
       v ← io_lift (Fields.getitem (fields self) field);
       print ("  " +:+ pad_left 11 field +:+ ": " +:+ v)).
End SenderInfo.

(** ** class SentencesInfo *)
Module SentencesInfo.
Section Defs.
Context {V : Type} `{PyOrd V}.

Record t : Type := Build {
  sentence_count : Z;
  type_counts : gmap Z Z;
  sender_counts : gmap (option string) Z;
  geo_info : GeoInfo.t V
}.

Definition init : t :=
  {| sentence_count := 0; type_counts := ∅; sender_counts := ∅;
     geo_info := GeoInfo.init |}.

Definition add (self : t) (sentence : Sentence.t V) : result t :=
  let sentence_count' := sentence_count self + 1 in
  let type_counts' := incr (type_counts self) (Sentence.type_id sentence) in
  let sender_counts' :=
    incr (sender_counts self) (Sentence.getitem sentence "mmsi") in
  match Sentence.location sentence with
  | Some loc =>
      geo' ← GeoInfo.add (geo_info self) loc;
      Ok {| sentence_count := sentence_count'; type_counts := type_counts';
            sender_counts := sender_counts'; geo_info := geo' |}
  | None =>
      Ok {| sentence_count := sentence_count'; type_counts := type_counts';
            sender_counts := sender_counts'; geo_info := geo_info self |}
  end.

Fixpoint add_all (self : t) (sentences : list (Sentence.t V)) : result t :=
  match sentences with
  | [] => Ok self
  | s :: rest => self' ← add self s; add_all self' rest
  end.

(** What [report] prints as the number of senders, and the sum of the
    per-type counts. *)
Definition sender_total (self : t) : Z :=
  Z.of_nat (size (sender_counts self)).
Definition type_total (self : t) : Z :=
  map_fold (fun _ c acc => c + acc) 0 (type_counts self).

Definition report (str_V : V -> string) (self : t) : IO unit :=
  _ ← print ("Found " +:+ str_int (Z.of_nat (size (sender_counts self)))
             +:+ " senders in " +:+ str_int (sentence_count self)
             +:+ " sentences.");
  _ ← print "   type counts:";
  _ ← for_each (merge_sort Z.le (map_to_list (type_counts self)).*1)
        (fun i =>
           print ("                " +:+ pad_left 2 (str_int i) +:+ " "
                  +:+ pad_left 8 (str_int (count_of (type_counts self) i))));
  _ ← print "";
  GeoInfo.report str_V (geo_info self) "  ".
End Defs.
Arguments t V : clear implicits.
End SentencesInfo.

(** ** The command [info] *)

(** [sorted(keys)] on sender identifiers: comparing [None] with a string
    is a [TypeError]. *)
Definition sorted_senders (keys : list (option string))
    : result (list (option string)) :=
  match keys with
  | [] | [_] => Ok keys
  | _ =>
      if forallb is_not_None keys
      then Ok (Some <$> merge_sort str_le (omap id keys))
      else Raise TypeError
  end.

Record info_state : Type := Build_info_state {
  sentences_info : SentencesInfo.t float;
  sender_info : gmap (option string) SenderInfo.t;
  map_info : DensityMap.t
}.

Definition info_init : info_state :=
  {| sentences_info := SentencesInfo.init; sender_info := ∅;
     map_info := DensityMap.default |}.

(** The body of the loop over the sentences. *)
Definition info_consume (individual show_map : bool) (st : info_state)
    (sentence : Sentence.t float) : result info_state :=
  si ← SentencesInfo.add (sentences_info st) sentence;
  mi ← (if show_map then
          match Sentence.location sentence with
          | Some loc => DensityMap.add (map_info st) loc
          | None => Ok (map_info st)
          end
        else Ok (map_info st));
  sd ← (if individual then
          let key := Sentence.getitem sentence "mmsi" in
          sender ← SenderInfo.add
                     (default SenderInfo.init (sender_info st !! key))
                     sentence;
          Ok (<[key := sender]> (sender_info st))
        else Ok (sender_info st));
  Ok {| sentences_info := si; sender_info := sd; map_info := mi |}.

Fixpoint info_consume_all (individual show_map : bool) (st : info_state)
    (sentences : list (Sentence.t float)) : result info_state :=
  match sentences with
  | [] => Ok st
  | s :: rest =>
      st' ← info_consume individual show_map st s;
      info_consume_all individual show_map st' rest
  end.

(** The body of the [with] block. *)
Definition info_render (str_float : float -> string)
    (individual show_map : bool) (st : info_state) : IO unit :=
  _ ← SentencesInfo.report str_float (sentences_info st);
  _ ← (if show_map then DensityMap.show (map_info st) else mret tt);
  if individual then
    keys ← io_lift (sorted_senders (map_to_list (sender_info st)).*1);
    for_each keys
      (fun mmsi =>
         SenderInfo.report (default SenderInfo.init (sender_info st !! mmsi)))
  else mret tt.

(** [info(sources, individual, show_map)] on the sentences the sources
    yield; [str_float] is [str] on floats. *)
Definition info (str_float : float -> string)
    (sentences : list (Sentence.t float)) (individual show_map : bool)
    : IO unit :=
  st ← io_lift (info_consume_all individual show_map info_init sentences);
  wild_disregard_for BrokenPipeError
    (info_render str_float individual show_map st).

(** ** chunks *)

(** [range(start, stop, step)]: [ValueError] when [step] is zero. *)
Definition py_range3 (start stop step : Z) : result (list Z) :=
  if step =? 0 then Raise ValueError
  else
    let len :=
      if 0 <? step
      then (if start <? stop then (stop - start - 1) / step + 1 else 0)
      else (if stop <? start then (start - stop - 1) / (- step) + 1 else 0) in
    Ok ((fun k => start + k * step) <$> seqZ 0 len).

(** The bound of a slice: a negative one counts from the end, and both
    ends are brought into the sequence. *)
Definition py_slice_bound (len x : Z) : Z :=
  if x <? 0 then Z.max 0 (x + len) else Z.min x len.

(** [l[i:j]] *)
Definition py_slice {A} (l : list A) (i j : Z) : list A :=
  let len := Z.of_nat (length l) in
  let i' := py_slice_bound len i in
  let j' := py_slice_bound len j in
  take (Z.to_nat (j' - i')) (drop (Z.to_nat i') l).

(** [chunks(l, n)], the chunks it yields collected in a list. *)
Definition chunks {A} (l : list A) (n : Z) : result (list (list A)) :=
  starts ← py_range3 0 (Z.of_nat (length l)) n;
  Ok ((fun i => py_slice l i (i + n)) <$> (starts : list Z)).

(** ** Loops of the callers and measures of grids *)

(** Adding a sequence of points, one [add] each, as the loop of [info]
    does. *)
Fixpoint DensityMap_add_all (self : DensityMap.t)
    (pts : list (float * float)) : result DensityMap.t :=
  match pts with
  | [] => Ok self
  | p :: pts' => self' ← DensityMap.add self p; DensityMap_add_all self' pts'
  end.

(** The sum of a list of counts, and of a grid of counts. *)
Definition Z_sum (l : list Z) : Z := foldr Z.add 0 l.
Definition grid_total (g : list (list Z)) : Z := Z_sum (Z_sum <$> g).

(** A grid of [h] rows of [w] cells. *)
Definition grid_shape (h w : nat) (g : list (list Z)) : Prop :=
  length g = h /\ Forall (fun row => length row = w) g.

(** In both trackers the two extremes are absent or present together. *)
Definition geo_paired {V} `{PyOrd V} (g : GeoInfo.t V) : Prop :=
  is_not_None (MaxMin.min (GeoInfo.lon g)) = is_not_None (MaxMin.max (GeoInfo.lon g))
  /\ is_not_None (MaxMin.min (GeoInfo.lat g)) = is_not_None (MaxMin.max (GeoInfo.lat g)).

(** ** Sequences of calls, and what the proofs count with *)

(** Feeding a sequence of points to a [GeoInfo], one [add] each. *)
Fixpoint GeoInfo_add_all {V} `{PyOrd V} (self : GeoInfo.t V)
    (pts : list (V * V)) : result (GeoInfo.t V) :=
  match pts with
  | [] => Ok self
  | p :: pts' => self' ← GeoInfo.add self p; GeoInfo_add_all self' pts'
  end.

(** The number of elements of [l] that [f] maps to [k]. *)
Definition occurrences {A K} `{EqDecision K} (f : A -> K) (k : K)
    (l : list A) : Z :=
  Z.of_nat (length (filter (fun a => f a = k) l)).

(** A sentence the sender aggregator can take: a voyage sentence
    (type 5) must have its ship name and its destination. *)
Definition voyage_complete {V} (s : Sentence.t V) : bool :=
  if Sentence.type_id s =? 5
  then is_not_None (Sentence.getitem s "shipname")
       && is_not_None (Sentence.getitem s "destination")
  else true.

(** The sentences of sender [k] in a stream, in order. *)
Definition of_sender {V} (k : option string) (l : list (Sentence.t V))
    : list (Sentence.t V) :=
  filter (fun s => Sentence.getitem s "mmsi" = k) l.

(** A string of whitespace only, and a string that does not start with
    whitespace. *)
Fixpoint all_space (s : string) : bool :=
  match s with
  | EmptyString => true
  | String c s' => py_isspace c && all_space s'
  end.
Definition head_ok (s : string) : bool :=
  match s with
  | EmptyString => true
  | String c _ => negb (py_isspace c)
  end.

(** ** The commands [cat], [grep] and [burst] *)

(** [sentence.text]: one line, or the lines of a sentence that came in
    several fragments. *)
Inductive py_text : Type :=
  | TextStr (s : string)
  | TextList (l : list string).

(** The lines [print_sentence_source] writes: [isinstance(text, str)]
    makes a single line a list of one. *)
Definition text_lines (text : py_text) : list string :=
  match text with
  | TextStr s => [s]
  | TextList l => l
  end.

(** [print_sentence_source(text)], to standard output. *)
Definition print_sentence_source (text : py_text) : IO unit :=
  for_each (text_lines text) print.

(** [print_sentence_source(text, file)] on the lines [file] holds. *)
Definition print_sentence_source_file (text : py_text)
    (file : list string) : list string :=
  foldl (fun content line => content ++ [line]) file (text_lines text).

(** The values the filter of [grep] computes with. *)
Inductive py_value : Type :=
  | PyNone
  | PyBool (b : bool)
  | PyFloat (x : float).

Definition py_truthy (v : py_value) : bool :=
  match v with
  | PyNone => false
  | PyBool b => b
  | PyFloat x => negb (x =? 0)%float
  end.

(** [x and y] *)
Definition py_and (x y : py_value) : py_value :=
  if py_truthy x then y else x.

(** [functools.reduce(f, l)] on a non-empty list. *)
Definition py_reduce {A} (f : A -> A -> A) (l : list A) : result A :=
  match l with
  | [] => Raise TypeError
  | x :: l' => Ok (foldl f x l')
  end.

(** A field that holds a number, as a value. *)
Definition number_value (o : option float) : py_value :=
  match o with Some x => PyFloat x | None => PyNone end.

Section Commands.
(** What the commands read of a sentence besides the interface of
    [Sentence]: its source text, and its fields that hold numbers. *)
Variable text_of : Sentence.t float -> py_text.
Variable number_of : Sentence.t float -> string -> option float.

(** [cat(sources)] on the sentences the sources yield. *)
Definition cat (sentences : list (Sentence.t float)) : IO unit :=
  for_each sentences
    (fun sentence =>
       wild_disregard_for BrokenPipeError
         (print_sentence_source (text_of sentence))).

(** The set of identifiers [grep] filters by: the [--mmsi] options and
    the stripped lines of the [--mmsi-file], when there is one. *)
Definition grep_mmsi (mmsi : list string) (mmsi_file : option (list string))
    : list string :=
  match mmsi_file with
  | Some lines => mmsi ++ (strip <$> lines)
  | None => mmsi
  end.

(** [lo < x < hi] under [sentence[key] and ...]. *)
Definition range_factor (bounds : float * float) (o : option float)
    : py_value :=
  py_and (number_value o)
    (PyBool (match o with
             | Some x => (fst bounds <? x)%float && (x <? snd bounds)%float
             | None => false
             end)).

Definition grep_factors (mmsi : list string) (sentence_type : option Z)
    (lon lat : option (float * float)) (sentence : Sentence.t float)
    : list py_value :=
  [PyBool true]
  ++ (if (0 <? length mmsi)%nat
      then [PyBool (bool_decide
                      (Sentence.getitem sentence "mmsi" ∈ Some <$> mmsi))]
      else [])
  ++ (match sentence_type with
      | Some t =>
          if t =? 0 then []
          else [PyBool (Sentence.type_id sentence =? t)]
      | None => []
      end)
  ++ (match lon with
      | Some bounds => [range_factor bounds (number_of sentence "lon")]
      | None => []
      end)
  ++ (match lat with
      | Some bounds => [range_factor bounds (number_of sentence "lat")]
      | None => []
      end).

(** [grep(sources, mmsi, mmsi_file, sentence_type, lon, lat)];
    [mmsi_file] is the lines of the file when a file is named. *)
Definition grep (sentences : list (Sentence.t float)) (mmsi : list string)
    (mmsi_file : option (list string)) (sentence_type : option Z)
    (lon lat : option (float * float)) : IO unit :=
  let mmsi := grep_mmsi mmsi mmsi_file in
  for_each sentences
    (fun sentence =>
       wild_disregard_for BrokenPipeError
         (verdict ← io_lift
                      (py_reduce py_and
                         (grep_factors mmsi sentence_type lon lat sentence));
          if py_truthy verdict
          then print_sentence_source (text_of sentence)
          else mret tt)).

(** The key [burst] files a sentence under. *)
Definition burst_key (sentence : Sentence.t float) : string :=
  match Sentence.getitem sentence "mmsi" with
  | Some mmsi => if str_truthy mmsi then mmsi else "other"
  | None => "other"
  end.

Record burst_state : Type := Build_burst_state {
  writers : gmap string string;
  disk : gmap string (list string)
}.

(** The body of the loop of [burst]: [open(name, "wt")] leaves an empty
    file of that name. *)
Definition burst_step (fname ext : string) (st : burst_state)
    (sentence : Sentence.t float) : burst_state :=
  let mmsi := burst_key sentence in
  let st1 :=
    match writers st !! mmsi with
    | Some _ => st
    | None =>
        let name := fname +:+ "-" +:+ mmsi +:+ ext in
        {| writers := <[mmsi := name]> (writers st);
           disk := <[name := []]> (disk st) |}
    end in
  match writers st1 !! mmsi with
  | Some name =>
      {| writers := writers st1;
         disk := alter (print_sentence_source_file (text_of sentence))
                   name (disk st1) |}
  | None => st1
  end.

(** [burst(source, dest)] on the sentences of [source]; [splitext] is
    [os.path.splitext], and the result is the files afterwards. *)
Definition burst (splitext : string -> string * string)
    (sentences : list (Sentence.t float)) (source : string)
    (dest : option string) (fs : gmap string (list string))
    : gmap string (list string) :=
  let dest := if opt_str_truthy dest then default source dest else source in
  let '(fname, ext) := splitext dest in
  disk (foldl (burst_step fname ext)
          {| writers := ∅; disk := fs |} sentences).

(** The lines of the source text of a sentence, and of a stream. *)
Definition lines_of (sentence : Sentence.t float) : list string :=
  text_lines (text_of sentence).
Definition all_lines (sentences : list (Sentence.t float)) : list string :=
  concat (lines_of <$> sentences).

(** The sentences [grep] lets through, said directly: the identifier is
    one of the given ones if any is given; the type is the given one if
    one other than 0 is given; and for a given range of longitudes, resp.
    latitudes, the coordinate is present, is not zero and lies strictly
    inside. *)
Definition in_range (bounds : option (float * float)) (o : option float)
    : bool :=
  match bounds, o with
  | None, _ => true
  | Some _, None => false
  | Some (lo, hi), Some x =>
      negb (x =? 0)%float && (lo <? x)%float && (x <? hi)%float
  end.

Definition grep_selects (mmsi : list string) (sentence_type : option Z)
    (lon lat : option (float * float)) (sentence : Sentence.t float) : bool :=
  (match mmsi with
   | [] => true
   | _ => bool_decide (Sentence.getitem sentence "mmsi" ∈ Some <$> mmsi)
   end)
  && (match sentence_type with
      | Some t => (t =? 0) || (Sentence.type_id sentence =? t)
      | None => true
      end)
  && in_range lon (number_of sentence "lon")
  && in_range lat (number_of sentence "lat").

(** The name of the file [burst] writes the sentences of a key to. *)
Definition burst_name (fname ext key : string) : string :=
  fname +:+ "-" +:+ key +:+ ext.
End Commands.

(** A command that writes [lines] and returns, or, when the consumer
    goes away before the last of them, stops there by [SystemExit(0)]. *)
Definition writes_or_exits (lines : list string) (m : IO unit) : Prop :=
  forall w,
    m (Sink w None) = (Ok tt, Sink (w ++ lines) None)
    /\ forall k : nat,
         m (Sink w (Some k))
         = if decide (length lines <= k)%nat
           then (Ok tt, Sink (w ++ lines) (Some (k - length lines)%nat))
           else (Raise (SystemExit 0),
                 Sink (w ++ take k lines) (Some 0%nat)).



(** The lines [burst] has filed under [key] after the sentences [seen],
    and the state of its loop at that point: a writer for each key seen,
    each key's file holding that key's lines, any other file as before. *)
Definition filed (text_of : Sentence.t float -> py_text) (key : string)
    (seen : list (Sentence.t float)) : list string :=
  all_lines text_of (filter (fun s => burst_key s = key) seen).

Definition burst_inv (text_of : Sentence.t float -> py_text)
    (fname ext : string) (fs : gmap string (list string))
    (seen : list (Sentence.t float)) (st : burst_state) : Prop :=
  (forall key, writers st !! key
     = if decide (key ∈ burst_key <$> seen)
       then Some (burst_name fname ext key) else None)
  /\ (forall key, key ∈ burst_key <$> seen ->
        disk st !! burst_name fname ext key = Some (filed text_of key seen))
  /\ (forall file,
        (forall key, key ∈ burst_key <$> seen ->
                     file <> burst_name fname ext key) ->
        disk st !! file = fs !! file).

(** The box of the fleet aggregator and the box of the map of a state of
    [info] have each side set on both ends or on neither. *)
Definition info_paired (st : info_state) : Prop :=
  geo_paired (SentencesInfo.geo_info (sentences_info st))
  /\ geo_paired (DensityMap.geo_info (map_info st)).

(** * Properties *)

(** ** Comparisons of binary64 values *)

Lemma SFcompare_antisym (f1 f2 : spec_float) :
  SFcompare f2 f1 = option_map CompOpp (SFcompare f1 f2).
Proof.
  destruct f1 as [s1|s1| |s1 m1 e1], f2 as [s2|s2| |s2 m2 e2]; cbn; try done;
    try (by destruct s1); try (by destruct s2); try (by destruct s1, s2).
  destruct s1, s2; try done; rewrite (Z.compare_antisym e1 e2);
    destruct (e1 ?= e2); cbn; try done;
    rewrite (Pos.compare_cont_antisym m1 m2); cbn;
    by rewrite ?CompOpp_involutive.
Qed.

Lemma float_leb_not_ltb (a b : float) :
  (a <=? b)%float = true -> (b <? a)%float = false.
Proof.
  rewrite leb_spec, ltb_spec. unfold SFleb, SFltb.
  rewrite (SFcompare_antisym (Prim2SF a)).
  by destruct (SFcompare (Prim2SF a) (Prim2SF b)) as [[]|].
Qed.

Lemma SFcompare_Lt_trans (a b c : spec_float) :
  SFcompare a b = Some Lt -> SFcompare b c = Some Lt ->
  SFcompare a c = Some Lt.
Proof.
  destruct a as [sa|sa| |sa ma ea], b as [sb|sb| |sb mb eb],
    c as [sc|sc| |sc mc ec]; cbn; try done;
    try (by destruct sa); try (by destruct sb); try (by destruct sc);
    try (by destruct sa, sb); try (by destruct sb, sc);
    try (by destruct sa, sc); try (by destruct sa, sb, sc).
  change (PosDef.Pos.compare_cont Eq) with Pos.compare.
  destruct sa, sb, sc; try done;
    destruct (Z.compare_spec ea eb), (Z.compare_spec eb ec),
      (Z.compare_spec ea ec); try done; try lia; subst;
    destruct (Pos.compare_spec ma mb), (Pos.compare_spec mb mc),
      (Pos.compare_spec ma mc); cbn; try done; try lia.
Qed.

(** [<] on binary64 is irreflexive and transitive, NaN included. *)
Lemma float_ltb_irrefl (a : float) : (a <? a)%float = false.
Proof.
  rewrite ltb_spec. unfold SFltb.
  destruct (Prim2SF a) as [s|s| |s m e]; cbn; try done; try (by destruct s).
  change (PosDef.Pos.compare_cont Eq) with Pos.compare.
  destruct s; by rewrite Z.compare_refl, Pos.compare_refl.
Qed.

Lemma float_ltb_trans (a b c : float) :
  (a <? b)%float = true -> (b <? c)%float = true -> (a <? c)%float = true.
Proof.
  rewrite !ltb_spec. unfold SFltb.
  destruct (SFcompare (Prim2SF a) (Prim2SF b)) as [[]|] eqn:Hab; try done.
  destruct (SFcompare (Prim2SF b) (Prim2SF c)) as [[]|] eqn:Hbc; try done.
  by rewrite (SFcompare_Lt_trans _ _ _ Hab Hbc).
Qed.

Lemma SFcompare_None (a b : spec_float) :
  SFcompare a b = None -> SFcompare a a = None \/ SFcompare b b = None.
Proof. destruct a, b; cbn; auto; discriminate. Qed.

(** Two values that are not NaN and of which neither is below the other
    are equal as numbers. *)
Lemma float_not_ltb_eqb (a b : float) :
  (a =? a)%float = true -> (b =? b)%float = true ->
  (a <? b)%float = false -> (b <? a)%float = false -> (a =? b)%float = true.
Proof.
  rewrite !ltb_spec, !FloatAxioms.eqb_spec. unfold SFltb, SFeqb.
  rewrite (SFcompare_antisym (Prim2SF a) (Prim2SF b)).
  destruct (SFcompare (Prim2SF a) (Prim2SF b)) as [[]|] eqn:Hab;
    cbn; try done.
  by destruct (SFcompare_None _ _ Hab) as [-> | ->].
Qed.

(** ** MaxMin over a strict total order *)
Section MaxMin_order.
Context {V : Type} `{PyOrd V}.
Hypothesis lt_irrefl : forall a : V, py_lt a a = false.
Hypothesis lt_trans :
  forall a b c : V, py_lt a b = true -> py_lt b c = true -> py_lt a c = true.

Lemma lt_asym (a b : V) : py_lt a b = true -> py_lt b a = false.
Proof.
  intros Hab. destruct (py_lt b a) eqn:Hba; [|done].
  pose proof (lt_irrefl a) as Hi.
  by rewrite (lt_trans _ _ _ Hab Hba) in Hi.
Qed.

(** One [add] on a tracker that already holds both extremes. *)
Lemma add_both (mn mx v : V) :
  MaxMin.add (MaxMin.Build (Some mn) (Some mx)) v =
  Ok (MaxMin.Build
        (Some (if py_lt v mn then v else mn))
        (Some (if py_lt mx v then v else mx))).
Proof.
  unfold MaxMin.add, MaxMin.valid, py_gt; simpl.
  destruct (py_lt mx v); simpl; destruct (py_lt v mn); reflexivity.
Qed.

Lemma add_first (v : V) :
  MaxMin.add (MaxMin.init None) v = Ok (MaxMin.Build (Some v) (Some v)).
Proof. reflexivity. Qed.

Lemma is_min_snoc (mn v : V) (seen : list V) :
  is_min mn seen -> is_min (if py_lt v mn then v else mn) (seen ++ [v]).
Proof.
  intros [Hin Hlow]. destruct (py_lt v mn) eqn:Hv; split.
  - set_solver.
  - intros x [Hx | Hx%list_elem_of_singleton]%elem_of_app.
    + destruct (py_lt x v) eqn:Hxv; [|done].
      by rewrite <- (Hlow x Hx), (lt_trans _ _ _ Hxv Hv).
    + subst x. apply lt_irrefl.
  - set_solver.
  - intros x [Hx | Hx%list_elem_of_singleton]%elem_of_app; [by apply Hlow|].
    by subst x.
Qed.

Lemma is_max_snoc (mx v : V) (seen : list V) :
  is_max mx seen -> is_max (if py_lt mx v then v else mx) (seen ++ [v]).
Proof.
  intros [Hin Hup]. destruct (py_lt mx v) eqn:Hv; split.
  - set_solver.
  - intros x [Hx | Hx%list_elem_of_singleton]%elem_of_app.
    + destruct (py_lt v x) eqn:Hvx; [|done].
      by rewrite <- (Hup x Hx), (lt_trans _ _ _ Hv Hvx).
    + subst x. apply lt_irrefl.
  - set_solver.
  - intros x [Hx | Hx%list_elem_of_singleton]%elem_of_app; [by apply Hup|].
    by subst x.
Qed.

(** The loop invariant of feeding values: the tracker holds the least
    and the greatest of the values seen so far. *)
Lemma add_all_both (l seen : list V) (mn mx : V) :
  is_min mn seen -> is_max mx seen ->
  exists mn' mx',
    MaxMin.add_all (MaxMin.Build (Some mn) (Some mx)) l
      = Ok (MaxMin.Build (Some mn') (Some mx'))
    /\ is_min mn' (seen ++ l) /\ is_max mx' (seen ++ l).
Proof.
  revert seen mn mx.
  induction l as [|v l IH]; intros seen mn mx Hmn Hmx.
  - exists mn, mx. by rewrite app_nil_r.
  - cbn [MaxMin.add_all]. rewrite add_both. cbn.
    destruct (IH (seen ++ [v]) _ _ (is_min_snoc _ v _ Hmn)
                (is_max_snoc _ v _ Hmx)) as (mn' & mx' & Heq & Hmn' & Hmx').
    exists mn', mx'. by rewrite <- !app_assoc in Hmn', Hmx'.
Qed.

Lemma add_all_nonempty (l : list V) :
  l <> [] ->
  exists mn mx,
    MaxMin.add_all (MaxMin.init None) l
      = Ok (MaxMin.Build (Some mn) (Some mx))
    /\ is_min mn l /\ is_max mx l.
Proof.
  destruct l as [|v l]; [done|]. intros _.
  cbn [MaxMin.add_all]. rewrite add_first. cbn.
  apply (add_all_both l [v] v v); split;
    try (intros x ->%list_elem_of_singleton; apply lt_irrefl); set_solver.
Qed.

(** C7. Every tracker reached from the default one by [add]s: it is
    reached without an exception; [min] or [max] is absent exactly when
    nothing was added; once valid, [max] is not below [min]; and one
    more [add] succeeds, leaves both present, and neither raises [min]
    nor lowers [max]. *)
Theorem MaxMin_reachable_invariant (l : list V) :
  exists s,
    MaxMin.add_all (MaxMin.init None) l = Ok s
    /\ (MaxMin.min s = None \/ MaxMin.max s = None <-> l = [])
    /\ (MaxMin.valid s = true <-> l <> [])
    /\ (MaxMin.valid s = true ->
        exists mn mx, MaxMin.min s = Some mn /\ MaxMin.max s = Some mx
                      /\ py_lt mx mn = false)
    /\ (forall v, exists s',
          MaxMin.add s v = Ok s'
          /\ MaxMin.valid s' = true
          /\ forall mn mx, MaxMin.min s = Some mn -> MaxMin.max s = Some mx ->
             exists mn' mx',
               MaxMin.min s' = Some mn' /\ MaxMin.max s' = Some mx'
               /\ py_lt mn mn' = false /\ py_lt mx' mx = false).
Proof.
  destruct l as [|v0 l].
  - exists (MaxMin.init None). cbn.
    split; [done|]. split; [by split; auto|].
    split; [by split|]. split; [done|].
    intros v. eexists. split; [reflexivity|]. split; [done|].
    intros mn mx Hmn; discriminate Hmn.
  - destruct (add_all_nonempty (v0 :: l)) as (mn & mx & Heq & Hmn & Hmx);
      [done|].
    exists (MaxMin.Build (Some mn) (Some mx)). split; [done|].
    cbn -[MaxMin.add].
    assert (Hle : py_lt mx mn = false) by (apply Hmx, Hmn).
    split; [split; [intros [?|?]|]; discriminate|].
    split; [by split|].
    split; [intros _; by exists mn, mx|].
    intros v. rewrite add_both. eexists. split; [done|]. split; [done|].
    intros mn1 mx1 Hmn1 Hmx1. injection Hmn1 as <-. injection Hmx1 as <-.
    cbn. eexists _, _. split; [done|]. split; [done|]. split.
    + destruct (py_lt v mn) eqn:Hv; [by apply lt_asym | apply lt_irrefl].
    + destruct (py_lt mx v) eqn:Hv; [by apply lt_asym | apply lt_irrefl].
Qed.
Hypothesis lt_total :
  forall a b : V, py_lt a b = false -> py_lt b a = false -> a = b.

Lemma is_min_unique (m m' : V) (l : list V) :
  is_min m l -> is_min m' l -> m = m'.
Proof. intros [Hin Hlow] [Hin' Hlow']. apply lt_total; auto. Qed.

Lemma is_max_unique (m m' : V) (l : list V) :
  is_max m l -> is_max m' l -> m = m'.
Proof. intros [Hin Hup] [Hin' Hup']. apply lt_total; auto. Qed.

Lemma is_min_perm (m : V) (l l' : list V) :
  l ≡ₚ l' -> is_min m l -> is_min m l'.
Proof. intros Hp [Hin Hlow]. split; setoid_rewrite <- Hp; auto. Qed.

Lemma is_max_perm (m : V) (l l' : list V) :
  l ≡ₚ l' -> is_max m l -> is_max m l'.
Proof. intros Hp [Hin Hup]. split; setoid_rewrite <- Hp; auto. Qed.

(** C6. After a non-empty sequence of values has been fed to a fresh
    tracker, [min] is the least and [max] the greatest of the values
    fed, and feeding the same values in any other order ends in the
    same tracker. *)
Theorem MaxMin_extremes_any_order (l l' : list V) :
  l <> [] -> l ≡ₚ l' ->
  exists mn mx,
    MaxMin.add_all (MaxMin.init None) l
      = Ok (MaxMin.Build (Some mn) (Some mx))
    /\ is_min mn l /\ is_max mx l
    /\ MaxMin.add_all (MaxMin.init None) l'
      = Ok (MaxMin.Build (Some mn) (Some mx)).
Proof.
  intros Hne Hp.
  destruct (add_all_nonempty l Hne) as (mn & mx & Heq & Hmn & Hmx).
  assert (Hne' : l' <> []).
  { intros ->. by apply Permutation_nil_r in Hp. }
  destruct (add_all_nonempty l' Hne') as (mn' & mx' & Heq' & Hmn' & Hmx').
  exists mn, mx. split; [done|]. split; [done|]. split; [done|].
  rewrite Heq'.
  by rewrite (is_min_unique mn' mn l' Hmn' (is_min_perm _ _ _ Hp Hmn)),
             (is_max_unique mx' mx l' Hmx' (is_max_perm _ _ _ Hp Hmx)).
Qed.

End MaxMin_order.

Lemma Z_ltb_trans (a b c : Z) : (a <? b) = true -> (b <? c) = true -> (a <? c) = true.
Proof. lia. Qed.
Lemma Z_ltb_total (a b : Z) : (a <? b) = false -> (b <? a) = false -> a = b.
Proof. lia. Qed.

Lemma MaxMin_extremes_any_order_witness :
  exists mn mx : Z,
    MaxMin.add_all (MaxMin.init None) [3; 1; 2]
      = Ok (MaxMin.Build (Some mn) (Some mx))
    /\ is_min mn [3; 1; 2] /\ is_max mx [3; 1; 2]
    /\ MaxMin.add_all (MaxMin.init None) [2; 3; 1]
      = Ok (MaxMin.Build (Some mn) (Some mx)).
Proof.
  apply (MaxMin_extremes_any_order (V := Z) Z.ltb_irrefl Z_ltb_trans Z_ltb_total).
  - discriminate.
  - apply perm_trans with [3; 2; 1]; [apply perm_skip, perm_swap|].
    apply perm_trans with [2; 3; 1]; [apply perm_swap|reflexivity].
Defined.

Lemma MaxMin_reachable_invariant_witness :
  exists s : MaxMin.t float,
    MaxMin.add_all (MaxMin.init None) [3.5; 1.25; 2]%float = Ok s
    /\ (MaxMin.min s = None \/ MaxMin.max s = None
        <-> [3.5; 1.25; 2]%float = [])
    /\ (MaxMin.valid s = true <-> [3.5; 1.25; 2]%float <> [])
    /\ (MaxMin.valid s = true ->
        exists mn mx, MaxMin.min s = Some mn /\ MaxMin.max s = Some mx
                      /\ py_lt mx mn = false)
    /\ (forall v, exists s',
          MaxMin.add s v = Ok s'
          /\ MaxMin.valid s' = true
          /\ forall mn mx, MaxMin.min s = Some mn -> MaxMin.max s = Some mx ->
             exists mn' mx',
               MaxMin.min s' = Some mn' /\ MaxMin.max s' = Some mx'
               /\ py_lt mn mn' = false /\ py_lt mx' mx = false).
Proof.
  exact (MaxMin_reachable_invariant (V := float)
           float_ltb_irrefl float_ltb_trans [3.5; 1.25; 2]%float).
Defined.

(** On binary64 values, whatever they are, a fresh tracker fed a
    non-empty sequence ends with a least and a greatest of its values. *)
Lemma MaxMin_float_extremes (l : list float) :
  l <> [] ->
  exists mn mx,
    MaxMin.add_all (MaxMin.init None) l
      = Ok (MaxMin.Build (Some mn) (Some mx))
    /\ is_min mn l /\ is_max mx l.
Proof. apply (add_all_nonempty float_ltb_irrefl float_ltb_trans). Qed.

(** On binary64 values that are not NaN, the order of insertion does not
    change the extremes as numbers (it can change the sign of a zero). *)
Lemma MaxMin_float_any_order (l l' : list float) :
  l <> [] -> l ≡ₚ l' -> Forall (fun v => (v =? v)%float = true) l ->
  exists mn mx mn' mx',
    MaxMin.add_all (MaxMin.init None) l
      = Ok (MaxMin.Build (Some mn) (Some mx))
    /\ MaxMin.add_all (MaxMin.init None) l'
      = Ok (MaxMin.Build (Some mn') (Some mx'))
    /\ (mn =? mn')%float = true /\ (mx =? mx')%float = true.
Proof.
  intros Hne Hp Hnan.
  assert (Hne' : l' <> []) by (intros ->; by apply Permutation_nil_r in Hp).
  destruct (MaxMin_float_extremes l Hne)
    as (mn & mx & Heq & [Hmn Hlow] & [Hmx Hup]).
  destruct (MaxMin_float_extremes l' Hne')
    as (mn' & mx' & Heq' & [Hmn' Hlow'] & [Hmx' Hup']).
  exists mn, mx, mn', mx'. split; [done|]. split; [done|].
  rewrite Forall_forall in Hnan. rewrite <- Hp in Hmn', Hmx'.
  split; apply float_not_ltb_eqb; auto; apply Hlow' || apply Hup';
    by rewrite <- Hp.
Qed.

Example MaxMin_float_zero_sign :
  MaxMin.add_all (MaxMin.init None) [0; -0]%float
    = Ok (MaxMin.Build (Some 0%float) (Some 0%float))
  /\ MaxMin.add_all (MaxMin.init None) [-0; 0]%float
    = Ok (MaxMin.Build (Some (-0)%float) (Some (-0)%float)).
Proof. split; reflexivity. Qed.

(** ** Bucketer *)

(** The clamp: no index is above [max_buckets]. *)
Lemma bucket_le_max_buckets (b : Bucketer.t) (v : float) (i : Z) :
  Bucketer.bucket b v = Ok i -> i <= Bucketer.max_buckets b.
Proof.
  unfold Bucketer.bucket.
  destruct (numpy.digitize v (Bucketer.bins b)) as [d|e]; cbn; [|done].
  destruct (Z.ltb_spec (Bucketer.max_buckets b) (d - 1)); intros [= <-]; lia.
Qed.

(** The fuel of [searchsorted_right] is enough: once it exceeds the width
    of the interval, more fuel does not change the result. *)
Lemma binsearch_right_fuel (fuel fuel' : nat) (arr : list float) (key : float)
    (min_idx max_idx : nat) :
  (max_idx - min_idx < fuel)%nat -> (max_idx - min_idx < fuel')%nat ->
  numpy.binsearch_right fuel arr key min_idx max_idx
  = numpy.binsearch_right fuel' arr key min_idx max_idx.
Proof.
  revert fuel' min_idx max_idx.
  induction fuel as [|fuel IH]; intros fuel' min_idx max_idx Hf Hf'; [lia|].
  destruct fuel' as [|fuel']; [lia|]. cbn [numpy.binsearch_right].
  destruct (Nat.ltb_spec min_idx max_idx) as [Hlt|Hge]; [|done].
  destruct (arr !! _) as [mid_val|]; [|done].
  assert (Hhalf : ((max_idx - min_idx) / 2 < max_idx - min_idx)%nat)
    by (apply Nat.div_lt; lia).
  destruct (numpy.npy_lt key mid_val); apply IH; lia.
Qed.

(** When the key is below every element, the binary search never moves
    its lower end. *)
Lemma binsearch_right_below (fuel : nat) (arr : list float) (key : float)
    (min_idx max_idx : nat) :
  Forall (fun e => numpy.npy_lt key e = true) arr ->
  numpy.binsearch_right fuel arr key min_idx max_idx = min_idx.
Proof.
  intros Hall. revert min_idx max_idx.
  induction fuel as [|fuel IH]; intros min_idx max_idx;
    cbn [numpy.binsearch_right]; [done|].
  destruct (min_idx <? max_idx)%nat; [|done].
  destruct (arr !! _) as [mid_val|] eqn:Hmid; [|done].
  rewrite Forall_lookup in Hall. by rewrite (Hall _ _ Hmid), IH.
Qed.

(** C3. [Bucketer(0, 10, 5)] is constructed with the edges 0, 2, ..., 10;
    [bucket(0)] is 0, [bucket(10)] is 4, [bucket(5)] is 2 (one of 1 and
    2, and the same for every construction since [init] is a function);
    and every value of the closed interval from 0 to 10 gets an index
    from 0 to 4. *)
Theorem Bucketer_0_10_5 :
  exists b,
    Bucketer.init 0 10 5 = Ok b
    /\ Bucketer.bucket b 0 = Ok 0
    /\ Bucketer.bucket b 10 = Ok 4
    /\ (exists i, Bucketer.bucket b 5 = Ok i /\ (i = 1 \/ i = 2))
    /\ forall v : float,
         (0 <=? v)%float = true -> (v <=? 10)%float = true ->
         exists i, Bucketer.bucket b v = Ok i /\ 0 <= i <= 4.
Proof.
  eexists. split; [vm_compute; reflexivity|].
  split; [vm_compute; reflexivity|].
  split; [vm_compute; reflexivity|].
  split; [exists 2; split; [vm_compute; reflexivity | by right]|].
  intros v H0 _.
  unfold Bucketer.bucket. cbn [Bucketer.bins Bucketer.max_buckets].
  unfold numpy.digitize.
  change (numpy.check_array_monotonic _) with numpy.increasing.
  cbn [mbind result_bind]. unfold numpy.searchsorted_right.
  cbn -[PrimFloat.ltb PrimFloat.eqb numpy.npy_lt].
  assert (Hv0 : numpy.npy_lt v 0 = false).
  { unfold numpy.npy_lt. rewrite (float_leb_not_ltb _ _ H0).
    by change (0 =? 0)%float with true. }
  rewrite Hv0.
  destruct (numpy.npy_lt v 6), (numpy.npy_lt v 2), (numpy.npy_lt v 4),
    (numpy.npy_lt v 10), (numpy.npy_lt v 8);
    cbn; eexists; (split; [reflexivity | lia]).
Qed.

Lemma Bucketer_0_10_5_witness :
  exists b,
    Bucketer.init 0 10 5 = Ok b
    /\ exists i, Bucketer.bucket b 7.5 = Ok i /\ 0 <= i <= 4.
Proof.
  destruct Bucketer_0_10_5 as (b & Hb & _ & _ & _ & Hall).
  exists b. split; [exact Hb|].
  apply Hall; vm_compute; reflexivity.
Defined.

(** C4. [Bucketer(7, 7, 4)] is constructed without an exception; its
    edges are the five evenly spaced points from 6 to 8; and [bucket(7)]
    is 2, between 0 and 3. *)
Theorem Bucketer_degenerate_7_4 :
  exists b,
    Bucketer.init 7 7 4 = Ok b
    /\ numpy.linspace (7 - 1) (7 + 1) (4 + 1) = Ok (Bucketer.bins b)
    /\ Bucketer.bins b = [6; 6.5; 7; 7.5; 8]%float
    /\ exists i, Bucketer.bucket b 7 = Ok i /\ 0 <= i <= 3.
Proof.
  eexists. split; [vm_compute; reflexivity|].
  split; [vm_compute; reflexivity|]. split; [reflexivity|].
  exists 2. split; [vm_compute; reflexivity | lia].
Qed.

(** C10, as the claim states it, fails for a range given in descending
    order: [Bucketer(10, 0, 5)] is constructed with descending edges, the
    value -1 is below all of them, and [bucket(-1)] is 4; the value 5 is
    below [min_val], and [bucket(5)] is 2. *)
Lemma Bucketer_below_not_minus_1 :
  exists b,
    Bucketer.init 10 0 5 = Ok b
    /\ Forall (fun e => (-1 <? e)%float = true) (Bucketer.bins b)
    /\ Bucketer.bucket b (-1) = Ok 4
    /\ Bucketer.bucket b (-1) <> Ok (-1)
    /\ (5 <? Bucketer.min_val b)%float = true
    /\ Bucketer.bucket b 5 = Ok 2.
Proof.
  eexists. split; [vm_compute; reflexivity|].
  split; [repeat constructor|].
  split; [vm_compute; reflexivity|].
  split; [vm_compute; discriminate|].
  split; vm_compute; reflexivity.
Qed.

(** *** The lowest edge *)

Lemma float_leb_not_nan (a b : float) :
  (a <=? b)%float = true -> (a =? a)%float = true.
Proof.
  rewrite leb_spec, FloatAxioms.eqb_spec. unfold SFleb, SFeqb.
  destruct (Prim2SF a) as [s|s| |s m e], (Prim2SF b); cbn; try done;
    try (by destruct s);
    change (PosDef.Pos.compare_cont Eq) with Pos.compare;
    destruct s; by rewrite Z.compare_refl, Pos.compare_refl.
Qed.

Lemma Bucketer_init_fields (min_val max_val : float) (bucket_count : Z)
    (b : Bucketer.t) :
  Bucketer.init min_val max_val bucket_count = Ok b ->
  Bucketer.min_val b = min_val /\ Bucketer.max_val b = max_val
  /\ Bucketer.bucket_count b = bucket_count
  /\ Bucketer.max_buckets b = bucket_count - 1
  /\ numpy.linspace
       (if (min_val =? max_val)%float then (min_val - 1)%float else min_val)
       (if (min_val =? max_val)%float then (max_val + 1)%float
        else (max_val + float_epsilon)%float)
       (bucket_count + 1) = Ok (Bucketer.bins b).
Proof.
  unfold Bucketer.init. destruct (min_val =? max_val)%float;
    (destruct (numpy.linspace _ _ _) as [y|e]; cbn; [|done]);
    by intros [= <-].
Qed.

Lemma SFcompare_Eq_l (a b c : spec_float) :
  SFcompare a b = Some Eq -> SFcompare c a = SFcompare c b.
Proof.
  destruct a as [sa|sa| |sa ma ea], b as [sb|sb| |sb mb eb]; cbn; try done;
    try (by destruct sa); try (by destruct sb); try (by destruct sa, sb).
  change (PosDef.Pos.compare_cont Eq) with Pos.compare.
  destruct sa, sb; try done;
    destruct (Z.compare_spec ea eb); try done; subst;
    destruct (Pos.compare_spec ma mb); try done; by subst.
Qed.

Lemma float_ltb_leb_trans (v a b : float) :
  (v <? a)%float = true -> (a <=? b)%float = true -> (v <? b)%float = true.
Proof.
  rewrite !ltb_spec, leb_spec. unfold SFltb, SFleb.
  destruct (SFcompare (Prim2SF v) (Prim2SF a)) as [[]|] eqn:Hva; try done.
  destruct (SFcompare (Prim2SF a) (Prim2SF b)) as [[]|] eqn:Hab; try done.
  - by rewrite <- (SFcompare_Eq_l _ _ _ Hab), Hva.
  - by rewrite (SFcompare_Lt_trans _ _ _ Hva Hab).
Qed.

Lemma float_eqb_leb_trans (p a x : float) :
  (p =? a)%float = true -> (p <=? x)%float = true -> (a <=? x)%float = true.
Proof.
  rewrite FloatAxioms.eqb_spec, !leb_spec. unfold SFeqb, SFleb.
  destruct (SFcompare (Prim2SF p) (Prim2SF a)) as [[]|] eqn:Hpa; try done.
  intros _. rewrite (SFcompare_antisym (Prim2SF x) (Prim2SF a)).
  rewrite (SFcompare_antisym (Prim2SF x) (Prim2SF p)).
  by rewrite (SFcompare_Eq_l _ _ (Prim2SF x) Hpa).
Qed.

Lemma float_leb_neq_ltb (a x : float) :
  (a <=? x)%float = true -> (x =? a)%float = false -> (a <? x)%float = true.
Proof.
  rewrite leb_spec, FloatAxioms.eqb_spec, ltb_spec. unfold SFleb, SFeqb, SFltb.
  rewrite (SFcompare_antisym (Prim2SF a) (Prim2SF x)).
  by destruct (SFcompare (Prim2SF a) (Prim2SF x)) as [[]|].
Qed.

Lemma float_ltb_not_nan (v a : float) :
  (v <? a)%float = true -> (v =? v)%float = true.
Proof.
  rewrite ltb_spec, FloatAxioms.eqb_spec. unfold SFltb, SFeqb.
  destruct (Prim2SF v) as [s|s| |s m e], (Prim2SF a); cbn; try done;
    try (by destruct s);
    change (PosDef.Pos.compare_cont Eq) with Pos.compare;
    destruct s; by rewrite Z.compare_refl, Pos.compare_refl.
Qed.

Lemma ascending_still_monotonic (a : float) (l : list float) :
  ascending (a :: l) = true -> numpy.still_monotonic true a l = true.
Proof.
  revert a. induction l as [|b l IH]; intros a; [done|].
  cbn [ascending numpy.still_monotonic]. intros [Hab Hl]%andb_prop.
  rewrite (float_leb_not_ltb _ _ Hab). by apply IH.
Qed.

Lemma ascending_skip_repeated (a p : float) (l : list float) :
  (p =? a)%float = true -> ascending (p :: l) = true ->
  match numpy.skip_repeated a l with
  | [] => True
  | next :: rest =>
      (a <? next)%float = true /\ numpy.still_monotonic true next rest = true
  end.
Proof.
  revert p. induction l as [|x l IH]; intros p Hp; [done|].
  cbn [ascending numpy.skip_repeated]. intros [Hpx Hl]%andb_prop.
  destruct (x =? a)%float eqn:Hxa.
  - by apply (IH x).
  - split; [|by apply ascending_still_monotonic].
    apply float_leb_neq_ltb; [|done]. by apply (float_eqb_leb_trans p).
Qed.

Lemma ascending_increasing (l : list float) :
  ascending l = true -> numpy.check_array_monotonic l = numpy.increasing.
Proof.
  destruct l as [|a l]; [done|]. intros Hl. unfold numpy.check_array_monotonic.
  destruct l as [|b l]; [done|].
  assert (Ha : (a =? a)%float = true).
  { cbn [ascending] in Hl. apply andb_prop in Hl as [Hab _].
    by apply float_leb_not_nan in Hab. }
  pose proof (ascending_skip_repeated a a (b :: l) Ha Hl) as H.
  destruct (numpy.skip_repeated a (b :: l)) as [|next rest]; [done|].
  destruct H as [-> ->]. done.
Qed.

Lemma ascending_below (v a : float) (l : list float) :
  ascending (a :: l) = true -> (v <? a)%float = true ->
  Forall (fun e => (v <? e)%float = true) (a :: l).
Proof.
  revert a. induction l as [|b l IH]; intros a Hl Hva.
  - by repeat constructor.
  - cbn [ascending] in Hl. apply andb_prop in Hl as [Hab Hl].
    constructor; [done|]. apply IH; [done|].
    by apply (float_ltb_leb_trans v a).
Qed.

(** Arithmetic on a zero: the first sample of [linspace] is
    [0 * step + start]. *)
Lemma zero_or_nan_mul (x y : float) :
  zero_or_nan x -> zero_or_nan (x * y).
Proof.
  unfold zero_or_nan. rewrite mul_spec. unfold SF64mul.
  destruct (Prim2SF x), (Prim2SF y); cbn; done.
Qed.

Lemma zero_or_nan_div (x y : float) :
  zero_or_nan x -> zero_or_nan (x / y).
Proof.
  unfold zero_or_nan. rewrite div_spec. unfold SF64div.
  destruct (Prim2SF x), (Prim2SF y); cbn; done.
Qed.

Lemma zero_or_nan_add (x start v : float) :
  zero_or_nan x -> (v <? start)%float = true ->
  numpy.npy_lt v (x + start) = true
  /\ ((x + start =? x + start)%float = true ->
      (v <? x + start)%float = true).
Proof.
  unfold zero_or_nan, numpy.npy_lt. intros Hx Hv.
  rewrite (float_ltb_not_nan _ _ Hv).
  revert Hv. rewrite !ltb_spec, FloatAxioms.eqb_spec, add_spec.
  unfold SF64add, SFltb, SFeqb.
  destruct (Prim2SF x) as [sx|sx| |sx mx ex]; try done;
    destruct (Prim2SF start) as [ss|ss| |ss ms es]; cbn [SFadd];
    try (by destruct (Prim2SF v)).
  - destruct sx, ss; destruct (Prim2SF v) as [s|s| |s m e]; cbn;
      try done; by destruct s.
  - intros ->. done.
  - intros Hv. split; [|done].
    by destruct (SFcompare (Prim2SF v) (S754_finite ss ms es)) as [[]|].
Qed.

Lemma Z2float_0 : zero_or_nan (Z2float 0).
Proof. vm_compute. done. Qed.

(** The first edge of [linspace] is [start] (as a number) or NaN. *)
Lemma linspace_first_edge (start stop : float) (num : Z) (e0 : float)
    (rest : list float) (v : float) :
  numpy.linspace start stop num = Ok (e0 :: rest) ->
  (v <? start)%float = true ->
  numpy.npy_lt v e0 = true
  /\ ((e0 =? e0)%float = true -> (v <? e0)%float = true).
Proof.
  unfold numpy.linspace. destruct (Z.ltb_spec num 0) as [|Hnum]; [done|].
  intros Hbins Hv.
  assert (Hnum1 : 1 <= num).
  { destruct (Z.eq_dec num 0) as [->|]; [|lia].
    cbn in Hbins. discriminate. }
  unfold py_range in Hbins.
  rewrite (seqZ_cons 0 num) in Hbins by lia.
  rewrite !fmap_cons in Hbins.
  set (f := fun v0 : float => (v0 + start)%float) in Hbins.
  assert (Hhead : exists x tl,
            zero_or_nan x /\ length tl = Z.to_nat (num - 1)
            /\ (if 1 <? num
                then <[Init.Nat.pred (length (f x :: tl)) := stop]> (f x :: tl)
                else f x :: tl) = e0 :: rest).
  { destruct (0 <? num - 1); [destruct (_ =? 0)%float|];
      rewrite fmap_cons in Hbins; injection Hbins as Hbins;
      eexists _, _; (split; [|split; [|exact Hbins]]);
      rewrite ?length_fmap, ?length_seqZ; try lia.
    - apply zero_or_nan_mul, zero_or_nan_div, Z2float_0.
    - apply zero_or_nan_mul, Z2float_0.
    - apply zero_or_nan_mul, Z2float_0. }
  destruct Hhead as (x & tl & Hx & Hlen & Hhead).
  assert (He0 : e0 = f x).
  { destruct (Z.ltb_spec 1 num); [|by injection Hhead as <-].
    destruct tl as [|t tl]; [cbn in Hlen; lia|].
    cbn in Hhead. by injection Hhead as <-. }
  subst e0. by apply zero_or_nan_add.
Qed.

(** C10, amended. For a Bucketer with at least zero buckets whose edges
    are in ascending order, a value strictly below the lowest edge, that
    is below [min_val - 1] when [min_val == max_val] and below [min_val]
    otherwise, is below every edge in the order of [numpy], and gets the
    index -1: the clamp bounds the index from above only. *)
Theorem Bucketer_below_lowest_edge (min_val max_val : float)
    (bucket_count : Z) (b : Bucketer.t) (v : float) :
  Bucketer.init min_val max_val bucket_count = Ok b ->
  0 <= bucket_count ->
  ascending (Bucketer.bins b) = true ->
  (v <? (if (min_val =? max_val)%float then (min_val - 1)%float
         else min_val))%float = true ->
  Forall (fun e => numpy.npy_lt v e = true) (Bucketer.bins b)
  /\ Bucketer.bucket b v = Ok (-1).
Proof.
  intros Hb Hn Hasc Hv.
  destruct (Bucketer_init_fields _ _ _ _ Hb) as (_ & _ & _ & Hmax & Hbins).
  assert (Hbelow : Forall (fun e => numpy.npy_lt v e = true)
                     (Bucketer.bins b)).
  { destruct (Bucketer.bins b) as [|e0 rest] eqn:Hedges; [done|].
    destruct (linspace_first_edge _ _ _ _ _ v Hbins Hv) as [H0 Hnum].
    destruct rest as [|e1 rest]; [by repeat constructor|].
    assert (He0 : (e0 =? e0)%float = true).
    { cbn [ascending] in Hasc. apply andb_prop in Hasc as [H01 _].
      by apply float_leb_not_nan in H01. }
    eapply Forall_impl; [apply (ascending_below v e0); auto|].
    intros e He. unfold numpy.npy_lt. by rewrite He. }
  split; [done|].
  unfold Bucketer.bucket, numpy.digitize.
  rewrite (ascending_increasing _ Hasc).
  unfold numpy.searchsorted_right. rewrite binsearch_right_below by done.
  cbn [mbind result_bind]. change (Z.of_nat 0 - 1) with (-1). rewrite Hmax.
  destruct (Z.ltb_spec (bucket_count - 1) (-1)); [lia|done].
Qed.

Lemma Bucketer_below_lowest_edge_witness :
  exists b,
    Bucketer.init 0 10 5 = Ok b
    /\ Forall (fun e => numpy.npy_lt (-3) e = true) (Bucketer.bins b)
    /\ Bucketer.bucket b (-3) = Ok (-1).
Proof.
  eexists. split; [vm_compute; reflexivity|].
  apply (Bucketer_below_lowest_edge 0 10 5).
  - vm_compute; reflexivity.
  - lia.
  - vm_compute; reflexivity.
  - vm_compute; reflexivity.
Defined.

(** The degenerate range of C4: the lowest edge is [7 - 1]. *)
Example Bucketer_7_7_4_below :
  exists b,
    Bucketer.init 7 7 4 = Ok b
    /\ ascending (Bucketer.bins b) = true
    /\ Bucketer.bucket b 5.5 = Ok (-1)
    /\ Bucketer.bucket b 6 = Ok 0.
Proof.
  eexists. split; [vm_compute; reflexivity|].
  repeat split; vm_compute; reflexivity.
Qed.

(** ** DensityMap with no point *)

Lemma const_range {A} (c : A) (n : Z) :
  (fun _ => c) <$> py_range n = replicate (Z.to_nat n) c.
Proof.
  unfold py_range. rewrite <- (length_seqZ 0 n). by apply const_fmap.
Qed.

Lemma mapM_replicate {A B} (f : A -> result B) (x : A) (y : B) (n : nat) :
  f x = Ok y -> mapM f (replicate n x) = Ok (replicate n y).
Proof.
  intros Hf. induction n as [|n IH]; [done|].
  cbn [replicate mapM]. rewrite Hf. cbn. by rewrite IH.
Qed.

Lemma py_max_zeros (n : nat) : py_max (replicate (S n) 0) = Ok 0.
Proof.
  cbn [replicate py_max]. f_equal.
  induction n as [|n IH]; [done|]. exact IH.
Qed.

Lemma to_counts_no_point (width height : Z) (indent : string) :
  DensityMap.to_counts (DensityMap.init width height indent)
  = Ok (replicate (Z.to_nat height) (replicate (Z.to_nat width) 0)).
Proof.
  unfold DensityMap.to_counts.
  cbn [DensityMap.init DensityMap.geo_info DensityMap.width DensityMap.height].
  change (GeoInfo.valid GeoInfo.init) with false. cbv iota.
  by rewrite const_range, const_range.
Qed.

(** C5, as the claim states it, fails for a map configured with no
    column or with no row: [max] of an empty list raises [ValueError]. *)
Lemma DensityMap_empty_grid_raises :
  DensityMap.to_text (DensityMap.init 0 20 "") = Raise ValueError
  /\ DensityMap.to_text (DensityMap.init 60 0 "") = Raise ValueError.
Proof. split; vm_compute; reflexivity. Qed.

(** C5, amended. A map with at least one column and one row and no
    point added: the counts are [height] rows of [width] zeros, and the
    text is returned without an exception and is a line ["+--...--+"],
    [height] lines ["|  ...  |"] of [width] blanks, and the first line
    again, each after the indent. *)
Theorem DensityMap_no_point_blank (width height : Z) (indent : string) :
  1 <= width -> 1 <= height ->
  DensityMap.to_counts (DensityMap.init width height indent)
    = Ok (replicate (Z.to_nat height) (replicate (Z.to_nat width) 0))
  /\ DensityMap.to_text (DensityMap.init width height indent)
    = Ok ([indent +:+ "+" +:+ str_repeat "-" width +:+ "+"]
          ++ replicate (Z.to_nat height)
               (indent +:+ "|" +:+ str_repeat " " width +:+ "|")
          ++ [indent +:+ "+" +:+ str_repeat "-" width +:+ "+"]).
Proof.
  intros Hw Hh. split; [apply to_counts_no_point|].
  unfold DensityMap.to_text. rewrite to_counts_no_point.
  cbn [mbind result_bind].
  destruct (Z.to_nat width) as [|w] eqn:Ew; [lia|].
  destruct (Z.to_nat height) as [|h] eqn:Eh; [lia|].
  rewrite (mapM_replicate py_max _ 0); [|apply py_max_zeros].
  cbn [mbind result_bind]. rewrite py_max_zeros. cbn [mbind result_bind].
  rewrite (mapM_replicate _ _
             (indent +:+ "|" +:+ str_repeat " " width +:+ "|")).
  - reflexivity.
  - unfold DensityMap.row_to_text.
    rewrite (mapM_replicate (DensityMap.value_to_text 0) 0 " "); [|done].
    cbn [mbind result_bind DensityMap.indent DensityMap.init].
    unfold str_repeat. by rewrite Ew.
Qed.

Lemma DensityMap_no_point_blank_witness :
  DensityMap.to_counts DensityMap.default
    = Ok (replicate 20 (replicate 60 0))
  /\ DensityMap.to_text DensityMap.default
    = Ok (["+" +:+ str_repeat "-" 60 +:+ "+"]
          ++ replicate 20 ("|" +:+ str_repeat " " 60 +:+ "|")
          ++ ["+" +:+ str_repeat "-" 60 +:+ "+"]).
Proof. apply (DensityMap_no_point_blank 60 20 ""); lia. Defined.

(** ** SenderInfo: the descriptive fields *)

Lemma str_truthy_length (s : string) :
  s <> EmptyString ->
  str_truthy s && (0 <? String.length s)%nat = true.
Proof. by destruct s. Qed.

(** A value that is not empty once stripped is stored, whatever was
    there before. *)
Lemma setitem_stores (f : Fields.t) (key value : string) :
  key <> EmptyString -> strip value <> EmptyString ->
  Fields.setitem f key (Some value)
  = Ok (Fields.Build (<[key := strip value]> (Fields.values f))).
Proof.
  intros Hk Hv. unfold Fields.setitem.
  rewrite <- andb_assoc, (str_truthy_length _ Hv). by destruct key.
Qed.

(** A value that is empty once stripped changes nothing. *)
Lemma setitem_skips (f : Fields.t) (key value : string) :
  strip value = EmptyString -> Fields.setitem f key (Some value) = Ok f.
Proof.
  intros Hv. unfold Fields.setitem. rewrite Hv. cbn.
  by rewrite andb_false_r.
Qed.

(** An absent value is an exception. *)
Lemma setitem_absent (f : Fields.t) (key : string) :
  Fields.setitem f key None = Raise AttributeError.
Proof. reflexivity. Qed.

(** C1, as the claim states it, fails: after two voyage sentences of one
    sender with the names "A" and then "B", the name kept is "B". *)
Lemma SenderInfo_second_name_kept :
  exists si,
    SenderInfo.add_all SenderInfo.init
      [voyage "366000001" "A" "X"; voyage "366000001" "B" "Y"] = Ok si
    /\ Fields.getitem (SenderInfo.fields si) "shipname" = Ok "B"
    /\ Fields.getitem (SenderInfo.fields si) "shipname" <> Ok "A".
Proof.
  eexists. split; [vm_compute; reflexivity|].
  split; [vm_compute; reflexivity|]. vm_compute. discriminate.
Qed.

(** What one voyage sentence does to a descriptive field. *)
Lemma add_voyage_fields {V} (si : SenderInfo.t) (s : Sentence.t V)
    (n d : string) :
  Sentence.type_id s = 5 ->
  Sentence.getitem s "shipname" = Some n ->
  Sentence.getitem s "destination" = Some d ->
  exists si' f1,
    SenderInfo.add si s = Ok si'
    /\ Fields.setitem (SenderInfo.fields si) "shipname" (Some n) = Ok f1
    /\ Fields.setitem f1 "destination" (Some d) = Ok (SenderInfo.fields si').
Proof.
  intros Ht Hn Hd. unfold SenderInfo.add. rewrite Ht, Hn, Hd.
  change (5 =? 5) with true. cbv iota.
  destruct (decide (strip n = EmptyString)) as [En|En];
    [rewrite (setitem_skips _ "shipname" _ En)
    |rewrite (setitem_stores _ "shipname" _ ltac:(done) En)];
    cbn [mbind result_bind];
    (destruct (decide (strip d = EmptyString)) as [Ed|Ed];
     [rewrite (setitem_skips _ "destination" _ Ed)
     |rewrite (setitem_stores _ "destination" _ ltac:(done) Ed)]);
    cbn [mbind result_bind]; eexists _, _; (split; [reflexivity|]);
    cbn [SenderInfo.fields]; (split; [reflexivity|]);
    first [ by apply setitem_skips | by apply setitem_stores ].
Qed.

(** C1, amended. The field capture is last-write-wins: after two voyage
    sentences, whatever the aggregator held before, a field holds the
    stripped value of the second sentence when that is not empty, and
    otherwise the stripped value of the first when that is not empty. *)
Theorem SenderInfo_last_write_wins {V} (si : SenderInfo.t)
    (s1 s2 : Sentence.t V) (n1 d1 n2 d2 : string) :
  Sentence.type_id s1 = 5 -> Sentence.type_id s2 = 5 ->
  Sentence.getitem s1 "shipname" = Some n1 ->
  Sentence.getitem s1 "destination" = Some d1 ->
  Sentence.getitem s2 "shipname" = Some n2 ->
  Sentence.getitem s2 "destination" = Some d2 ->
  exists si',
    SenderInfo.add_all si [s1; s2] = Ok si'
    /\ (strip n2 <> EmptyString ->
        Fields.getitem (SenderInfo.fields si') "shipname" = Ok (strip n2))
    /\ (strip d2 <> EmptyString ->
        Fields.getitem (SenderInfo.fields si') "destination" = Ok (strip d2))
    /\ (strip n2 = EmptyString -> strip n1 <> EmptyString ->
        Fields.getitem (SenderInfo.fields si') "shipname" = Ok (strip n1))
    /\ (strip d2 = EmptyString -> strip d1 <> EmptyString ->
        Fields.getitem (SenderInfo.fields si') "destination" = Ok (strip d1)).
Proof.
  intros Ht1 Ht2 Hn1 Hd1 Hn2 Hd2.
  destruct (add_voyage_fields si s1 n1 d1 Ht1 Hn1 Hd1)
    as (si1 & f1 & Hadd1 & Hf1 & Hsi1).
  destruct (add_voyage_fields si1 s2 n2 d2 Ht2 Hn2 Hd2)
    as (si2 & f2 & Hadd2 & Hf2 & Hsi2).
  exists si2. cbn [SenderInfo.add_all]. rewrite Hadd1. cbn [mbind result_bind].
  rewrite Hadd2. split; [reflexivity|].
  assert (Hget : forall (f f' : Fields.t) key v,
            key <> EmptyString -> strip v <> EmptyString ->
            Fields.setitem f key (Some v) = Ok f' ->
            Fields.getitem f' key = Ok (strip v)).
  { intros f f' key v Hk Hv. rewrite (setitem_stores _ _ _ Hk Hv).
    intros [= <-]. unfold Fields.getitem. cbn. by rewrite lookup_insert_eq. }
  assert (Hkeep : forall (f f' : Fields.t) key key' v,
            key <> key' -> Fields.setitem f key (Some v) = Ok f' ->
            Fields.getitem f' key' = Fields.getitem f key').
  { intros f f' key key' v Hne.
    destruct (decide (strip v = EmptyString)) as [Ev|Ev].
    - rewrite (setitem_skips _ _ _ Ev). by intros [= <-].
    - unfold Fields.setitem. destruct (_ && _); intros [= <-]; [|done].
      unfold Fields.getitem. cbn. by rewrite lookup_insert_ne. }
  assert (Hsame : forall (f f' : Fields.t) key v,
            strip v = EmptyString -> Fields.setitem f key (Some v) = Ok f' ->
            f' = f).
  { intros f f' key v Ev. rewrite (setitem_skips _ _ _ Ev). by intros [= <-]. }
  repeat split.
  - intros En2.
    rewrite (Hkeep _ _ "destination" "shipname" _ ltac:(done) Hsi2).
    by apply (Hget _ _ "shipname" _ ltac:(done) En2 Hf2).
  - intros Ed2. by apply (Hget _ _ "destination" _ ltac:(done) Ed2 Hsi2).
  - intros En2 En1.
    rewrite (Hkeep _ _ "destination" "shipname" _ ltac:(done) Hsi2).
    rewrite (Hsame _ _ _ _ En2 Hf2).
    rewrite (Hkeep _ _ "destination" "shipname" _ ltac:(done) Hsi1).
    by apply (Hget _ _ "shipname" _ ltac:(done) En1 Hf1).
  - intros Ed2 Ed1. rewrite (Hsame _ _ _ _ Ed2 Hsi2).
    rewrite (Hkeep _ _ "shipname" "destination" _ ltac:(done) Hf2).
    by apply (Hget _ _ "destination" _ ltac:(done) Ed1 Hsi1).
Qed.

Lemma SenderInfo_last_write_wins_witness :
  exists si',
    SenderInfo.add_all SenderInfo.init
      [voyage "366000001" "A" "X"; voyage "366000001" " B " "  "] = Ok si'
    /\ (strip " B " <> EmptyString ->
        Fields.getitem (SenderInfo.fields si') "shipname" = Ok (strip " B "))
    /\ (strip "  " <> EmptyString ->
        Fields.getitem (SenderInfo.fields si') "destination" = Ok (strip "  "))
    /\ (strip " B " = EmptyString -> strip "A" <> EmptyString ->
        Fields.getitem (SenderInfo.fields si') "shipname" = Ok (strip "A"))
    /\ (strip "  " = EmptyString -> strip "X" <> EmptyString ->
        Fields.getitem (SenderInfo.fields si') "destination" = Ok (strip "X")).
Proof.
  apply (SenderInfo_last_write_wins SenderInfo.init
           (voyage "366000001" "A" "X") (voyage "366000001" " B " "  "));
    vm_compute; reflexivity.
Defined.

(** C2. A voyage sentence whose ship name is absent makes the sender
    aggregator raise [AttributeError] instead of skipping the field. *)
Theorem SenderInfo_absent_shipname_raises :
  SenderInfo.add SenderInfo.init
    (Sentence.Build (V := float) 5 (<["mmsi" := "366000001"]> ∅) None)
  = Raise AttributeError.
Proof. vm_compute. reflexivity. Qed.

(** The same for every aggregator state and every voyage sentence with
    an absent ship name or destination. *)
Lemma SenderInfo_absent_field_raises {V} (si : SenderInfo.t)
    (s : Sentence.t V) :
  Sentence.type_id s = 5 ->
  Sentence.getitem s "shipname" = None
  \/ Sentence.getitem s "destination" = None ->
  SenderInfo.add si s = Raise AttributeError.
Proof.
  intros Ht Habs. unfold SenderInfo.add. rewrite Ht.
  change (5 =? 5) with true. cbv iota.
  destruct (Sentence.getitem s "shipname") as [n|]; [|done].
  destruct Habs as [Habs|Habs]; [done|]. rewrite Habs.
  unfold Fields.setitem. destruct (_ && _ && _); reflexivity.
Qed.

(** ** SentencesInfo: the counts *)

Section Fleet.
Context {V : Type} `{PyOrd V}.

(** A tracker whose extremes are both absent or both present accepts
    any value and stays so. *)
Lemma MaxMin_add_paired (s : MaxMin.t V) (v : V) :
  is_not_None (MaxMin.min s) = is_not_None (MaxMin.max s) ->
  exists s',
    MaxMin.add s v = Ok s'
    /\ is_not_None (MaxMin.min s') = is_not_None (MaxMin.max s').
Proof.
  destruct s as [[mn|] [mx|]]; cbn; try done; intros _.
  - unfold MaxMin.add, py_gt; cbn.
    destruct (py_lt mx v); cbn; destruct (py_lt v mn); by eexists.
  - by eexists.
Qed.

Lemma GeoInfo_add_paired (g : GeoInfo.t V) (p : V * V) :
  is_not_None (MaxMin.min (GeoInfo.lon g))
    = is_not_None (MaxMin.max (GeoInfo.lon g)) ->
  is_not_None (MaxMin.min (GeoInfo.lat g))
    = is_not_None (MaxMin.max (GeoInfo.lat g)) ->
  exists g',
    GeoInfo.add g p = Ok g'
    /\ is_not_None (MaxMin.min (GeoInfo.lon g'))
       = is_not_None (MaxMin.max (GeoInfo.lon g'))
    /\ is_not_None (MaxMin.min (GeoInfo.lat g'))
       = is_not_None (MaxMin.max (GeoInfo.lat g')).
Proof.
  intros Hlon Hlat. unfold GeoInfo.add.
  destruct (MaxMin_add_paired _ (fst p) Hlon) as (lon' & -> & Hlon').
  destruct (MaxMin_add_paired _ (snd p) Hlat) as (lat' & -> & Hlat').
  by eexists.
Qed.

(** The sum of the counts after [d[k] += 1]. *)
Lemma sum_incr (d : gmap Z Z) (k : Z) :
  map_fold (fun _ c acc => c + acc) 0 (incr d k)
  = map_fold (fun _ c acc => c + acc) 0 d + 1.
Proof.
  unfold incr.
  assert (Hcomm : forall (m : gmap Z Z) (j1 j2 : Z) (z1 z2 y : Z),
            j1 <> j2 -> m !! j1 = Some z1 -> m !! j2 = Some z2 ->
            z1 + (z2 + y) = z2 + (z1 + y)) by (intros; lia).
  destruct (d !! k) as [c|] eqn:Hk; cbn [default].
  - rewrite <- (insert_delete_eq d k (c + 1)).
    rewrite map_fold_insert_L;
      [|by apply Hcomm|by apply lookup_delete_eq].
    rewrite (map_fold_delete_L _ _ k c d); [lia|by apply Hcomm|done].
  - rewrite map_fold_insert_L; [lia|by apply Hcomm|done].
Qed.

(** The senders counted after [d[k] += 1]. *)
Lemma dom_incr (d : gmap (option string) Z) (k : option string) :
  dom (incr d k) = {[k]} ∪ dom d.
Proof. unfold incr. apply dom_insert_L. Qed.

(** The loop invariant of the fleet aggregator over the sentences
    [seen] so far. *)
Lemma SentencesInfo_add_all_inv (l seen : list (Sentence.t V))
    (st : SentencesInfo.t V) :
  SentencesInfo.sentence_count st = Z.of_nat (length seen) ->
  dom (SentencesInfo.sender_counts st)
    = list_to_set ((fun s => Sentence.getitem s "mmsi") <$> seen) ->
  SentencesInfo.type_total st = Z.of_nat (length seen) ->
  is_not_None (MaxMin.min (GeoInfo.lon (SentencesInfo.geo_info st)))
    = is_not_None (MaxMin.max (GeoInfo.lon (SentencesInfo.geo_info st))) ->
  is_not_None (MaxMin.min (GeoInfo.lat (SentencesInfo.geo_info st)))
    = is_not_None (MaxMin.max (GeoInfo.lat (SentencesInfo.geo_info st))) ->
  exists st',
    SentencesInfo.add_all st l = Ok st'
    /\ SentencesInfo.sentence_count st' = Z.of_nat (length (seen ++ l))
    /\ dom (SentencesInfo.sender_counts st')
       = list_to_set ((fun s => Sentence.getitem s "mmsi") <$> (seen ++ l))
    /\ SentencesInfo.type_total st' = Z.of_nat (length (seen ++ l)).
Proof.
  revert seen st. induction l as [|s l IH]; intros seen st Hn Hdom Hty Hlon Hlat.
  - exists st. by rewrite app_nil_r.
  - cbn [SentencesInfo.add_all].
    assert (Hstep : exists st1,
              SentencesInfo.add st s = Ok st1
              /\ SentencesInfo.sentence_count st1
                 = SentencesInfo.sentence_count st + 1
              /\ SentencesInfo.type_counts st1
                 = incr (SentencesInfo.type_counts st) (Sentence.type_id s)
              /\ SentencesInfo.sender_counts st1
                 = incr (SentencesInfo.sender_counts st)
                     (Sentence.getitem s "mmsi")
              /\ is_not_None (MaxMin.min (GeoInfo.lon (SentencesInfo.geo_info st1)))
                 = is_not_None (MaxMin.max (GeoInfo.lon (SentencesInfo.geo_info st1)))
              /\ is_not_None (MaxMin.min (GeoInfo.lat (SentencesInfo.geo_info st1)))
                 = is_not_None (MaxMin.max (GeoInfo.lat (SentencesInfo.geo_info st1)))).
    { unfold SentencesInfo.add. destruct (Sentence.location s) as [loc|].
      - destruct (GeoInfo_add_paired _ loc Hlon Hlat) as (g' & -> & Hlon' & Hlat').
        by eexists.
      - by eexists. }
    destruct Hstep as (st1 & -> & Hn1 & Hty1 & Hsd1 & Hlon1 & Hlat1).
    cbn [mbind result_bind].
    destruct (IH (seen ++ [s]) st1) as (st' & Hall & Hn' & Hdom' & Hty');
      try done.
    + rewrite Hn1, Hn, length_app. cbn. lia.
    + rewrite Hsd1, dom_incr, Hdom, fmap_app, list_to_set_app_L. cbn.
      by rewrite (right_id_L ∅ (∪)), (comm_L (∪)).
    + unfold SentencesInfo.type_total in *.
      rewrite Hty1, sum_incr, Hty, length_app. cbn. lia.
    + exists st'. by rewrite <- !app_assoc in Hn', Hdom', Hty'.
Qed.

(** C8. The fleet aggregator consumes any finite stream without an
    exception; afterwards its sentence count is the length of the
    stream, the number of senders it reports is the number of distinct
    sender identifiers in the stream, and its per-type counts add up to
    the length of the stream. *)
Theorem SentencesInfo_totals (l : list (Sentence.t V)) :
  exists st,
    SentencesInfo.add_all SentencesInfo.init l = Ok st
    /\ SentencesInfo.sentence_count st = Z.of_nat (length l)
    /\ SentencesInfo.sender_total st
       = Z.of_nat (length (remove_dups
                             ((fun s => Sentence.getitem s "mmsi") <$> l)))
    /\ SentencesInfo.type_total st = Z.of_nat (length l).
Proof.
  destruct (SentencesInfo_add_all_inv l [] SentencesInfo.init)
    as (st & Hall & Hn & Hdom & Hty); try done.
  exists st. split; [done|]. split; [done|]. split; [|done].
  unfold SentencesInfo.sender_total. f_equal.
  rewrite <- size_dom, Hdom. cbn [app].
  rewrite <- (size_list_to_set (C := gset (option string)) (remove_dups _));
    [|apply NoDup_remove_dups].
  f_equal. apply set_eq. intros x.
  by rewrite !elem_of_list_to_set, elem_of_remove_dups.
Qed.
End Fleet.

(** ** Output and the broken pipe *)

Lemma prints_lift {A} (r : result A) : prints (io_lift r).
Proof.
  intros w. exists r, []. rewrite app_nil_r. split; [done|].
  intros k. cbn. by rewrite Nat.sub_0_r.
Qed.

Lemma prints_ret {A} (a : A) : prints (mret a : IO A).
Proof. apply (prints_lift (Ok a)). Qed.

Lemma prints_print (line : string) : prints (print line).
Proof.
  intros w. exists (Ok tt), [line]. split; [done|].
  intros [|k]; cbn; [by rewrite app_nil_r|]. by rewrite Nat.sub_0_r.
Qed.

Lemma prints_bind {A B} (m : IO A) (f : A -> IO B) :
  prints m -> (forall a, prints (f a)) -> prints (m ≫= f).
Proof.
  intros Hm Hf w. destruct (Hm w) as (r & l1 & H1 & H1k).
  destruct r as [a|e].
  - destruct (Hf a (w ++ l1)) as (r2 & l2 & H2 & H2k).
    exists r2, (l1 ++ l2). unfold mbind, IO_bind. rewrite H1, H2, app_assoc.
    split; [done|]. intros k. rewrite H1k.
    destruct (decide (length l1 <= k)%nat) as [Hk|Hk].
    + rewrite H2k, length_app.
      destruct (decide (length l2 <= k - length l1)%nat);
        destruct (decide (length l1 + length l2 <= k)%nat); try lia.
      * by rewrite Nat.sub_add_distr.
      * by rewrite take_app_ge, app_assoc by lia.
    + rewrite length_app.
      destruct (decide (length l1 + length l2 <= k)%nat); [lia|].
      by rewrite take_app_le by lia.
  - exists (Raise e), l1. unfold mbind, IO_bind. rewrite H1.
    split; [done|]. intros k. rewrite H1k.
    by destruct (decide (length l1 <= k)%nat).
Qed.

Lemma prints_for_each {A} (l : list A) (body : A -> IO unit) :
  (forall x, prints (body x)) -> prints (for_each l body).
Proof.
  intros Hbody. induction l as [|x l IH]; cbn [for_each].
  - apply prints_ret.
  - apply prints_bind; [apply Hbody | intros _; apply IH].
Qed.

Ltac prints_steps :=
  repeat first
    [ apply prints_print
    | apply prints_lift
    | apply prints_ret
    | apply prints_for_each; intros ?
    | apply prints_bind; [|intros ?] ].

Lemma prints_GeoInfo_report {V} `{PyOrd V} (str_V : V -> string)
    (g : GeoInfo.t V) (indent : string) :
  prints (GeoInfo.report str_V g indent).
Proof. unfold GeoInfo.report. prints_steps. Qed.





(** Whatever the body does, [BrokenPipeError] does not leave the
    [with] block. *)
Lemma wild_disregard_for_catches {A} (body : IO A) (s : sink) :
  fst (wild_disregard_for BrokenPipeError body s) <> Raise BrokenPipeError.
Proof.
  unfold wild_disregard_for. destruct (body s) as [[a|e] s']; [done|].
  destruct (decide (e = BrokenPipeError)) as [->|Hne]; cbn; congruence.
Qed.




(** The report of the stream of section 8 fits in the buffer and the
    consumer has gone before the first line: no print raises, [info]
    returns, and the process ends with status 120. *)
Example info_scenario_consumer_gone :
  fst (info (fun _ => "?") scenario true false (Sink [] None)) = Ok tt
  /\ process_status (Some 0%nat)
       (info (fun _ => "?") scenario true false (Sink [] None)) = 120.
Proof. split; vm_compute; reflexivity. Qed.

(** The whole output of [info] on the stream of section 8 with a grid of
    the default size left out: the fleet report, then the senders in
    ascending order. *)
Example info_scenario_report :
  info (fun _ => "?") scenario true false (Sink [] None)
  = (Ok tt,
     Sink ["Found 2 senders in 3 sentences."; "   type counts:";
           "                 1        2"; "                 5        1";
           ""; "      top left: ?, ?"; "  bottom right: ?, ?";
           "A:"; "    sentences: 2"; "        types: 1: 2";
           "B:"; "    sentences: 1"; "        types: 5: 1";
           "  destination: Y"; "     shipname: X"] None).
Proof. vm_compute. reflexivity. Qed.

(** ** chunks *)

Lemma py_slice_chunk {A} (l : list A) (i n : nat) :
  (0 < n)%nat ->
  py_slice l (Z.of_nat i) (Z.of_nat i + Z.of_nat n) = take n (drop i l).
Proof.
  intros Hn. unfold py_slice, py_slice_bound.
  destruct (Z.ltb_spec (Z.of_nat i) 0); [lia|].
  destruct (Z.ltb_spec (Z.of_nat i + Z.of_nat n) 0); [lia|].
  destruct (decide (i <= length l)%nat) as [Hi|Hi].
  - rewrite (Z.min_l (Z.of_nat i)) by lia. rewrite Nat2Z.id.
    destruct (decide (i + n <= length l)%nat).
    + rewrite Z.min_l by lia. f_equal. lia.
    + rewrite Z.min_r by lia.
      rewrite (take_ge _ n) by (rewrite length_drop; lia).
      apply take_ge. rewrite length_drop. lia.
  - rewrite !Z.min_r by lia. rewrite Z.sub_diag. cbn [Z.to_nat take].
    rewrite (drop_ge _ i) by lia. by destruct n.
Qed.

Lemma concat_take_drop {A} (n m : nat) (l : list A) :
  (length l <= m * n)%nat ->
  concat ((fun k => take n (drop (k * n) l)) <$> seq 0 m) = l.
Proof.
  revert l. induction m as [|m IH]; intros l Hl.
  - destruct l; [done|]. cbn in Hl. lia.
  - cbn [seq fmap list_fmap concat]. rewrite drop_0.
    rewrite <- fmap_S_seq, <- list_fmap_compose.
    transitivity (take n l ++ drop n l); [|apply take_drop]. f_equal.
    etransitivity; [|apply (IH (drop n l)); rewrite length_drop; lia].
    f_equal. apply list_fmap_ext. intros _ k _. cbn.
    by rewrite drop_drop.
Qed.

(** X1. For a positive chunk size the chunks put end to end are the
    sequence again, none is empty or longer than the size, all but the
    last have exactly that size, and there are ceil(len/n) of them. *)
Theorem chunks_positive {A} (l : list A) (n : Z) :
  0 < n ->
  exists cs,
    chunks l n = Ok cs
    /\ concat cs = l
    /\ Forall (fun c => (0 < length c <= Z.to_nat n)%nat) cs
    /\ (forall i c, cs !! i = Some c -> (S i < length cs)%nat ->
         length c = Z.to_nat n)
    /\ Z.of_nat (length cs) = (Z.of_nat (length l) + n - 1) / n.
Proof.
  intros Hn. unfold chunks, py_range3.
  destruct (Z.eqb_spec n 0); [lia|].
  destruct (Z.ltb_spec 0 n); [|lia].
  set (len := Z.of_nat (length l)).
  set (m := if 0 <? len then (len - 0 - 1) / n + 1 else 0).
  assert (Hm : m = (len + n - 1) / n).
  { unfold m. destruct (Z.ltb_spec 0 len).
    - rewrite Z.sub_0_r, <- Z.div_add by lia. f_equal. lia.
    - assert (len = 0) as -> by lia. symmetry. apply Z.div_small. lia. }
  assert (Hm0 : 0 <= m) by (rewrite Hm; apply Z.div_pos; lia).
  assert (Hbound : len <= m * n /\ m * n < len + n).
  { rewrite Hm. pose proof (Z.mul_div_le (len + n - 1) n ltac:(lia)).
    pose proof (Z.mul_succ_div_gt (len + n - 1) n ltac:(lia)). lia. }
  cbn [mbind result_bind].
  set (N := Z.to_nat n).
  assert (Hcs : (fun i => py_slice l i (i + n)) <$>
                  ((fun k => 0 + k * n) <$> seqZ 0 m)
                = (fun k => take N (drop (k * N) l)) <$> seq 0 (Z.to_nat m)).
  { unfold seqZ. rewrite <- !list_fmap_compose. apply list_fmap_ext.
    intros _ k _. cbn.
    replace (0 + (Z.of_nat k + 0) * n) with (Z.of_nat (k * N)) by lia.
    replace n with (Z.of_nat N) at 1 by lia.
    apply py_slice_chunk. lia. }
  rewrite Hcs. eexists. split; [reflexivity|].
  split; [apply concat_take_drop; lia|]. split; [|split].
  - apply Forall_fmap, Forall_forall. intros k Hk%elem_of_seq. cbn.
    rewrite length_take, length_drop. nia.
  - intros i c Hi Hlt. rewrite length_fmap, length_seq in Hlt.
    rewrite list_lookup_fmap in Hi.
    destruct (seq 0 (Z.to_nat m) !! i) as [k|] eqn:Hk; [|done].
    apply lookup_seq in Hk as [-> _]. cbn in Hi. injection Hi as <-.
    rewrite length_take, length_drop. nia.
  - rewrite length_fmap, length_seq. lia.
Qed.

Lemma chunks_positive_witness :
  exists cs,
    chunks [1; 2; 3; 4; 5; 6; 7] 3 = Ok cs
    /\ concat cs = [1; 2; 3; 4; 5; 6; 7]
    /\ Forall (fun c => (0 < length c <= Z.to_nat 3)%nat) cs
    /\ (forall i c, cs !! i = Some c -> (S i < length cs)%nat ->
         length c = Z.to_nat 3)
    /\ Z.of_nat (length cs)
       = (Z.of_nat (length [1; 2; 3; 4; 5; 6; 7]) + 3 - 1) / 3.
Proof. apply (chunks_positive [1; 2; 3; 4; 5; 6; 7] 3). lia. Defined.

(** X2. A chunk size of zero is a [ValueError]; a negative one yields no
    chunk at all, whatever the sequence. *)
Theorem chunks_not_positive {A} (l : list A) (n : Z) :
  n <= 0 ->
  chunks l n = if n =? 0 then Raise ValueError else Ok [].
Proof.
  intros Hn. unfold chunks, py_range3.
  destruct (Z.eqb_spec n 0); [done|].
  destruct (Z.ltb_spec 0 n); [lia|].
  destruct (Z.ltb_spec (Z.of_nat (length l)) 0); [lia|]. reflexivity.
Qed.

Lemma chunks_not_positive_witness :
  chunks [1; 2; 3] (-2) = Ok [] /\ chunks [1; 2; 3] 0 = Raise ValueError.
Proof.
  split; [apply (chunks_not_positive [1; 2; 3] (-2)) |
          apply (chunks_not_positive [1; 2; 3] 0)]; lia.
Defined.

(** ** Bucketer: construction and bounds *)

Lemma linspace_length (start stop : float) (num : Z) :
  if num <? 0 then numpy.linspace start stop num = Raise ValueError
  else exists y, numpy.linspace start stop num = Ok y
                 /\ length y = Z.to_nat num
                 /\ (2 <= num -> last y = Some stop).
Proof.
  unfold numpy.linspace. destruct (Z.ltb_spec num 0) as [Hneg|Hnum]; [done|].
  set (y0 := Z2float <$> py_range num).
  set (y1 := if 0 <? num - 1 then _ else _).
  set (y2 := (fun v => (v + start)%float) <$> y1).
  assert (Hlen : length y2 = Z.to_nat num).
  { unfold y2, y1. rewrite length_fmap.
    assert (length y0 = Z.to_nat num)
      by (unfold y0, py_range; by rewrite length_fmap, length_seqZ).
    destruct (0 <? num - 1); [destruct (_ =? _)%float|];
      by rewrite length_fmap. }
  eexists. split; [reflexivity|]. split.
  - destruct (1 <? num); [by rewrite length_insert|done].
  - intros H2. destruct (Z.ltb_spec 1 num); [|lia].
    rewrite last_lookup, length_insert. apply list_lookup_insert_eq. lia.
Qed.

Lemma binsearch_right_range (fuel : nat) (arr : list float) (key : float)
    (min_idx max_idx : nat) :
  (min_idx <= max_idx)%nat ->
  (min_idx <= numpy.binsearch_right fuel arr key min_idx max_idx <= max_idx)%nat.
Proof.
  revert min_idx max_idx.
  induction fuel as [|fuel IH]; intros min_idx max_idx Hle;
    cbn [numpy.binsearch_right]; [lia|].
  destruct (Nat.ltb_spec min_idx max_idx) as [Hlt|Hge]; [|lia].
  destruct (arr !! _) as [mid_val|]; [|lia].
  assert (Hhalf : ((max_idx - min_idx) / 2 < max_idx - min_idx)%nat)
    by (apply Nat.div_lt; lia).
  destruct (numpy.npy_lt key mid_val).
  - specialize (IH min_idx (min_idx + (max_idx - min_idx) / 2)%nat). lia.
  - specialize (IH (S (min_idx + (max_idx - min_idx) / 2)) max_idx). lia.
Qed.

Lemma searchsorted_right_range (arr : list float) (key : float) :
  (numpy.searchsorted_right arr key <= length arr)%nat.
Proof.
  apply (binsearch_right_range (S (length arr)) arr key 0 (length arr)). lia.
Qed.

Lemma digitize_range (x : float) (bins : list float) (d : Z) :
  numpy.digitize x bins = Ok d -> 0 <= d <= Z.of_nat (length bins).
Proof.
  unfold numpy.digitize.
  destruct (numpy.check_array_monotonic bins); intros Hd; [| |done];
    injection Hd as <-.
  - pose proof (searchsorted_right_range bins x). lia.
  - pose proof (searchsorted_right_range (reverse bins) x) as Hr.
    rewrite length_reverse in Hr. lia.
Qed.

(** X3. Constructing a Bucketer fails, with [ValueError], exactly when
    [bucket_count] is below -1; otherwise it has [bucket_count + 1]
    edges, and with at least one bucket the last edge is exactly
    [max_val + epsilon] ([max_val + 1] for [min_val == max_val]). *)
Theorem Bucketer_init_edges (min_val max_val : float) (bucket_count : Z) :
  if bucket_count <? -1
  then Bucketer.init min_val max_val bucket_count = Raise ValueError
  else exists b,
         Bucketer.init min_val max_val bucket_count = Ok b
         /\ Z.of_nat (length (Bucketer.bins b)) = bucket_count + 1
         /\ (1 <= bucket_count ->
             last (Bucketer.bins b)
             = Some (if (min_val =? max_val)%float then (max_val + 1)%float
                     else (max_val + float_epsilon)%float)).
Proof.
  unfold Bucketer.init.
  destruct (min_val =? max_val)%float.
  - pose proof (linspace_length (min_val - 1) (max_val + 1) (bucket_count + 1)) as H.
    destruct (Z.ltb_spec bucket_count (-1)), (Z.ltb_spec (bucket_count + 1) 0);
      try lia.
    + by rewrite H.
    + destruct H as (y & -> & Hlen & Hlast). eexists. split; [reflexivity|].
      cbn. split; [lia|]. intros. apply Hlast. lia.
  - pose proof (linspace_length min_val (max_val + float_epsilon) (bucket_count + 1)) as H.
    destruct (Z.ltb_spec bucket_count (-1)), (Z.ltb_spec (bucket_count + 1) 0);
      try lia.
    + by rewrite H.
    + destruct H as (y & -> & Hlen & Hlast). eexists. split; [reflexivity|].
      cbn. split; [lia|]. intros. apply Hlast. lia.
Qed.

(** X4. Whatever the value, NaN and infinities included, [bucket]
    returns an index that is at most [bucket_count - 1] and, with at
    least zero buckets, at least -1; the only exception it raises is the
    [ValueError] of [numpy.digitize] on edges that are not monotonic. *)
Theorem Bucketer_bucket_bounds (min_val max_val : float) (bucket_count : Z)
    (b : Bucketer.t) (v : float) :
  Bucketer.init min_val max_val bucket_count = Ok b ->
  match Bucketer.bucket b v with
  | Ok i => i <= bucket_count - 1 /\ (0 <= bucket_count -> -1 <= i)
  | Raise e =>
      e = ValueError
      /\ numpy.check_array_monotonic (Bucketer.bins b) = numpy.neither
  end.
Proof.
  intros Hb. destruct (Bucketer_init_fields _ _ _ _ Hb) as (_ & _ & _ & Hmax & _).
  unfold Bucketer.bucket.
  destruct (numpy.digitize v (Bucketer.bins b)) as [d|e] eqn:Hd; cbn.
  - apply digitize_range in Hd. rewrite Hmax.
    destruct (Z.ltb_spec (bucket_count - 1) (d - 1)); lia.
  - unfold numpy.digitize in Hd.
    destruct (numpy.check_array_monotonic _); by try injection Hd as <-.
Qed.

Lemma binsearch_right_above (fuel : nat) (arr : list float) (key : float)
    (min_idx max_idx : nat) :
  Forall (fun e => numpy.npy_lt key e = false) arr ->
  (max_idx <= length arr)%nat -> (min_idx <= max_idx)%nat ->
  (max_idx - min_idx < fuel)%nat ->
  numpy.binsearch_right fuel arr key min_idx max_idx = max_idx.
Proof.
  intros Hall Hlen. revert min_idx.
  induction fuel as [|fuel IH]; intros min_idx Hle Hfuel; [lia|].
  cbn [numpy.binsearch_right].
  destruct (Nat.ltb_spec min_idx max_idx) as [Hlt|Hge]; [|lia].
  assert (Hhalf : ((max_idx - min_idx) / 2 < max_idx - min_idx)%nat)
    by (apply Nat.div_lt; lia).
  destruct (lookup_lt_is_Some_2 arr (min_idx + (max_idx - min_idx) / 2)%nat)
    as [mid_val Hmid]; [lia|].
  rewrite Hmid. rewrite Forall_lookup in Hall. rewrite (Hall _ _ Hmid).
  apply IH; lia.
Qed.

(** X5. With ascending edges, a value at or above every edge, the
    last one included, gets the last index [bucket_count - 1]: this is
    what the clamp is for. *)
Theorem Bucketer_at_or_above_every_edge (min_val max_val : float)
    (bucket_count : Z) (b : Bucketer.t) (v : float) :
  Bucketer.init min_val max_val bucket_count = Ok b ->
  0 <= bucket_count ->
  numpy.check_array_monotonic (Bucketer.bins b) = numpy.increasing ->
  Forall (fun e => (e <=? v)%float = true) (Bucketer.bins b) ->
  Bucketer.bucket b v = Ok (bucket_count - 1).
Proof.
  intros Hb Hn Hmono Habove.
  destruct (Bucketer_init_fields _ _ _ _ Hb) as (_ & _ & _ & Hmax & Hlin).
  pose proof (linspace_length
                (if (min_val =? max_val)%float then (min_val - 1)%float
                 else min_val)
                (if (min_val =? max_val)%float then (max_val + 1)%float
                 else (max_val + float_epsilon)%float)
                (bucket_count + 1)) as Hlen.
  destruct (Z.ltb_spec (bucket_count + 1) 0); [lia|].
  destruct Hlen as (y & Hy & Hlen & _). rewrite Hlin in Hy.
  injection Hy as <-.
  unfold Bucketer.bucket, numpy.digitize. rewrite Hmono.
  unfold numpy.searchsorted_right.
  rewrite binsearch_right_above; try lia.
  - cbn [mbind result_bind]. rewrite Hmax, Hlen.
    destruct (Z.ltb_spec (bucket_count - 1)
                (Z.of_nat (Z.to_nat (bucket_count + 1)) - 1)); [done|lia].
  - eapply Forall_impl; [exact Habove|]. intros e He. unfold numpy.npy_lt.
    by rewrite (float_leb_not_ltb _ _ He), (float_leb_not_nan _ _ He).
Qed.

Lemma Bucketer_bucket_bounds_witness :
  match (b ← Bucketer.init 0 10 5; Bucketer.bucket b infinity) with
  | Ok i => i <= 5 - 1 /\ (0 <= 5 -> -1 <= i)
  | Raise e => False
  end.
Proof.
  pose proof (Bucketer_bucket_bounds 0 10 5) as H.
  destruct (Bucketer.init 0 10 5) as [b|e] eqn:Hb; [|by vm_compute in Hb].
  specialize (H b infinity eq_refl). cbn [mbind result_bind].
  destruct (Bucketer.bucket b infinity) as [i|e] eqn:Hi; [exact H|].
  vm_compute in Hb. injection Hb as <-. by vm_compute in Hi.
Defined.

Lemma Bucketer_at_or_above_every_edge_witness :
  exists b, Bucketer.init 0 10 5 = Ok b /\ Bucketer.bucket b 10 = Ok (5 - 1).
Proof.
  eexists. split; [vm_compute; reflexivity|].
  apply (Bucketer_at_or_above_every_edge 0 10 5).
  - vm_compute; reflexivity.
  - lia.
  - vm_compute; reflexivity.
  - repeat constructor.
Defined.

(** ** DensityMap: every point is counted once *)

Lemma Z_sum_insert (l : list Z) (j : nat) (c c' : Z) :
  l !! j = Some c -> Z_sum (<[j := c']> l) = Z_sum l - c + c'.
Proof.
  unfold Z_sum. revert j.
  induction l as [|a l IH]; intros [|j] Hj; try done; simpl in *.
  - injection Hj as ->. lia.
  - specialize (IH j Hj). lia.
Qed.

Lemma py_index_lt (len i : Z) (j : nat) :
  py_index len i = Ok j -> Z.of_nat j < len.
Proof.
  unfold py_index. destruct (_ && _) eqn:Hb; [|done]. intros [= <-].
  apply andb_true_iff in Hb as [?%Z.leb_le ?%Z.ltb_lt]. lia.
Qed.

Lemma py_getitem_Ok {A} (l : list A) (i : Z) (a : A) :
  py_getitem l i = Ok a ->
  exists j, py_index (Z.of_nat (length l)) i = Ok j /\ l !! j = Some a.
Proof.
  unfold py_getitem. destruct (py_index _ i) as [j|e]; cbn; [|done].
  destruct (l !! j) eqn:Hj; [|done]. intros [= <-]. eauto.
Qed.

Lemma py_setitem_Ok {A} (l : list A) (i : Z) (a : A) (j : nat) :
  py_index (Z.of_nat (length l)) i = Ok j ->
  py_setitem l i a = Ok (<[j := a]> l).
Proof. unfold py_setitem. by intros ->. Qed.

Lemma incr_cell_Ok (g g' : list (list Z)) (y x : Z) (h w : nat) :
  grid_shape h w g -> DensityMap.incr_cell g y x = Ok g' ->
  grid_shape h w g' /\ grid_total g' = grid_total g + 1.
Proof.
  intros [Hh Hw] Hincr. unfold DensityMap.incr_cell in Hincr.
  destruct (py_getitem g y) as [row|] eqn:Hrow; cbn in Hincr; [|done].
  apply py_getitem_Ok in Hrow as (jy & Hjy & Hrow).
  destruct (py_getitem row x) as [c|] eqn:Hc; cbn in Hincr; [|done].
  apply py_getitem_Ok in Hc as (jx & Hjx & Hc).
  rewrite (py_setitem_Ok _ _ _ _ Hjx) in Hincr. cbn in Hincr.
  rewrite (py_setitem_Ok _ _ _ _ Hjy) in Hincr. injection Hincr as <-.
  split; [split|].
  - by rewrite length_insert.
  - apply Forall_insert; [done|]. rewrite length_insert.
    by apply (Forall_lookup_1 _ _ _ _ Hw Hrow).
  - unfold grid_total. rewrite list_fmap_insert.
    rewrite (Z_sum_insert _ _ (Z_sum row)) by (by rewrite list_lookup_fmap, Hrow).
    rewrite (Z_sum_insert _ _ c) by done. lia.
Qed.

Lemma count_points_Ok (hh : Z) (xb yb : Bucketer.t) (pts : list (float * float))
    (g g' : list (list Z)) (h w : nat) :
  grid_shape h w g -> DensityMap.count_points hh xb yb pts g = Ok g' ->
  grid_shape h w g' /\ grid_total g' = grid_total g + Z.of_nat (length pts).
Proof.
  revert g. induction pts as [|[lon lat] pts IH]; intros g Hg Hc; cbn in Hc.
  - injection Hc as <-. split; [done|]. cbn. lia.
  - destruct (Bucketer.bucket xb lon) as [x|]; cbn in Hc; [|done].
    destruct (Bucketer.bucket yb lat) as [b|]; cbn in Hc; [|done].
    destruct (DensityMap.incr_cell g _ x) as [g1|] eqn:Hg1; cbn in Hc; [|done].
    destruct (incr_cell_Ok _ _ _ _ _ _ Hg Hg1) as [Hs1 Ht1].
    destruct (IH g1 Hs1 Hc) as [Hs' Ht']. split; [done|].
    rewrite Ht', Ht1. cbn [length]. lia.
Qed.

Lemma Z_sum_replicate (n : nat) (c : Z) :
  Z_sum (replicate n c) = Z.of_nat n * c.
Proof.
  unfold Z_sum. induction n as [|n IH]; simpl; [lia | rewrite IH; lia].
Qed.

Lemma grid_zeros (h w : nat) :
  grid_shape h w (replicate h (replicate w 0))
  /\ grid_total (replicate h (replicate w 0)) = 0.
Proof.
  split; [split|].
  - apply length_replicate.
  - apply Forall_replicate, length_replicate.
  - unfold grid_total. rewrite fmap_replicate, !Z_sum_replicate. lia.
Qed.

Lemma MaxMin_add_valid {V} `{PyOrd V} (s s' : MaxMin.t V) (v : V) :
  MaxMin.add s v = Ok s' -> MaxMin.valid s' = true.
Proof.
  unfold MaxMin.add, MaxMin.valid, py_gt.
  destruct s as [[mn|] [mx|]]; cbn; try (by intros [= <-]).
  destruct (py_lt mx v); cbn; destruct (py_lt v mn); by intros [= <-].
Qed.

Lemma GeoInfo_add_valid {V} `{PyOrd V} (g g' : GeoInfo.t V) (p : V * V) :
  GeoInfo.add g p = Ok g' -> GeoInfo.valid g' = true.
Proof.
  unfold GeoInfo.add, GeoInfo.valid.
  destruct (MaxMin.add (GeoInfo.lon g) _) as [lon'|] eqn:Hlon; cbn; [|done].
  destruct (MaxMin.add (GeoInfo.lat g) _) as [lat'|] eqn:Hlat; cbn; [|done].
  intros [= <-]. cbn.
  by rewrite (MaxMin_add_valid _ _ _ Hlon), (MaxMin_add_valid _ _ _ Hlat).
Qed.

Lemma DensityMap_add_all_Ok (pts : list (float * float)) (dm : DensityMap.t) :
  geo_paired (DensityMap.geo_info dm) ->
  (GeoInfo.valid (DensityMap.geo_info dm) = true <-> DensityMap.points dm <> []) ->
  exists dm',
    DensityMap_add_all dm pts = Ok dm'
    /\ DensityMap.width dm' = DensityMap.width dm
    /\ DensityMap.height dm' = DensityMap.height dm
    /\ DensityMap.indent dm' = DensityMap.indent dm
    /\ DensityMap.points dm' = DensityMap.points dm ++ pts
    /\ (GeoInfo.valid (DensityMap.geo_info dm') = true
        <-> DensityMap.points dm' <> []).
Proof.
  revert dm. induction pts as [|p pts IH]; intros dm [Hlon Hlat] Hvalid.
  - exists dm. by rewrite app_nil_r.
  - cbn [DensityMap_add_all]. unfold DensityMap.add.
    destruct (GeoInfo_add_paired _ p Hlon Hlat) as (g' & Hg' & Hlon' & Hlat').
    rewrite Hg'. cbn [mbind result_bind mret result_ret].
    destruct (IH (DensityMap.Build (DensityMap.width dm) (DensityMap.height dm)
                    (DensityMap.indent dm) g' (DensityMap.points dm ++ [p])))
      as (dm' & Hall & Hw & Hh & Hi & Hp & Hv).
    + by split.
    + cbn. rewrite (GeoInfo_add_valid _ _ _ Hg'). split; [|done].
      intros _ Heq. by destruct (DensityMap.points dm).
    + exists dm'. cbn in *. by rewrite <- app_assoc in Hp.
Qed.

(** X6. Points can always be added to a fresh map; and whenever
    [to_counts] returns a grid for the map, the grid has [height] rows of
    [width] cells and its counts add up to the number of points added:
    no point is dropped or counted twice. *)
Theorem DensityMap_counts_every_point (width height : Z) (indent : string)
    (pts : list (float * float)) :
  exists dm,
    DensityMap_add_all (DensityMap.init width height indent) pts = Ok dm
    /\ DensityMap.points dm = pts
    /\ forall counts,
         DensityMap.to_counts dm = Ok counts ->
         length counts = Z.to_nat height
         /\ Forall (fun row => length row = Z.to_nat width) counts
         /\ grid_total counts = Z.of_nat (length pts).
Proof.
  destruct (DensityMap_add_all_Ok pts (DensityMap.init width height indent))
    as (dm & Hall & Hw & Hh & _ & Hp & Hv); [done|done|].
  cbn in Hw, Hh, Hp. exists dm. split; [done|]. split; [done|].
  intros counts. unfold DensityMap.to_counts. rewrite Hw, Hh, !const_range.
  destruct (grid_zeros (Z.to_nat height) (Z.to_nat width)) as [Hshape Htotal].
  destruct (GeoInfo.valid (DensityMap.geo_info dm)) eqn:Hvalid.
  - intros Hc.
    repeat (match type of Hc with
            | (?m ≫= _) = _ => destruct m; cbn [mbind result_bind] in Hc; [|done]
            end).
    destruct (count_points_Ok _ _ _ _ _ _ _ _ Hshape Hc) as [[? ?] Ht].
    rewrite Ht, Htotal, Hp. done.
  - intros [= <-]. destruct Hshape as [? ?]. split; [done|]. split; [done|].
    rewrite Htotal. destruct pts; [done|].
    destruct Hv as [_ Hv]. rewrite Hp in Hv. specialize (Hv ltac:(done)).
    congruence.
Qed.

Lemma DensityMap_counts_every_point_witness :
  exists dm counts,
    DensityMap_add_all (DensityMap.init 3 2 "")
      [(1, 2); (1, 2); (2, 3)]%float = Ok dm
    /\ DensityMap.to_counts dm = Ok counts
    /\ counts = [[0; 0; 1]; [2; 0; 0]]
    /\ grid_total counts = 3.
Proof.
  destruct (DensityMap_counts_every_point 3 2 ""
              [(1, 2); (1, 2); (2, 3)]%float) as (dm & Hdm & _ & Hcounts).
  exists dm, [[0; 0; 1]; [2; 0; 0]].
  assert (Hc : DensityMap.to_counts dm = Ok [[0; 0; 1]; [2; 0; 0]]).
  { vm_compute in Hdm. injection Hdm as <-. vm_compute. reflexivity. }
  split; [exact Hdm|]. split; [exact Hc|]. split; [reflexivity|].
  by destruct (Hcounts _ Hc) as (_ & _ & ->).
Defined.

(** ** The bounding box *)

Section GeoBox.
Context {V : Type} `{PyOrd V}.
Hypothesis lt_irrefl : forall a : V, py_lt a a = false.
Hypothesis lt_trans :
  forall a b c : V, py_lt a b = true -> py_lt b c = true -> py_lt a c = true.

Lemma GeoInfo_add_all_split (pts : list (V * V)) (g : GeoInfo.t V)
    (lon' lat' : MaxMin.t V) :
  MaxMin.add_all (GeoInfo.lon g) (fst <$> pts) = Ok lon' ->
  MaxMin.add_all (GeoInfo.lat g) (snd <$> pts) = Ok lat' ->
  GeoInfo_add_all g pts = Ok (GeoInfo.Build lon' lat').
Proof.
  revert g. induction pts as [|p pts IH]; intros [lon lat]; cbn.
  - by intros [= <-] [= <-].
  - unfold GeoInfo.add. cbn.
    destruct (MaxMin.add lon p.1) as [lon1|]; cbn; [|done].
    destruct (MaxMin.add lat p.2) as [lat1|]; cbn; [|done].
    apply (IH (GeoInfo.Build lon1 lat1)).
Qed.

(** X7. After the points of a non-empty sequence have been added, the
    box is set on all four sides, each side is a coordinate of one of the
    points, and no point lies outside the box. *)
Theorem GeoInfo_box_contains_points (pts : list (V * V)) :
  pts <> [] ->
  exists lon_min lon_max lat_min lat_max,
    GeoInfo_add_all GeoInfo.init pts
      = Ok (GeoInfo.Build (MaxMin.Build (Some lon_min) (Some lon_max))
              (MaxMin.Build (Some lat_min) (Some lat_max)))
    /\ lon_min ∈ fst <$> pts /\ lon_max ∈ fst <$> pts
    /\ lat_min ∈ snd <$> pts /\ lat_max ∈ snd <$> pts
    /\ forall p, p ∈ pts ->
         py_lt (fst p) lon_min = false /\ py_lt lon_max (fst p) = false
         /\ py_lt (snd p) lat_min = false /\ py_lt lat_max (snd p) = false.
Proof.
  intros Hne.
  destruct (add_all_nonempty lt_irrefl lt_trans (fst <$> pts))
    as (lon_min & lon_max & Hlon & [Hlon1 Hlon2] & [Hlon3 Hlon4]);
    [by destruct pts|].
  destruct (add_all_nonempty lt_irrefl lt_trans (snd <$> pts))
    as (lat_min & lat_max & Hlat & [Hlat1 Hlat2] & [Hlat3 Hlat4]);
    [by destruct pts|].
  exists lon_min, lon_max, lat_min, lat_max.
  split; [by apply GeoInfo_add_all_split|]. repeat (split; [done|]).
  intros p Hp.
  assert (p.1 ∈ fst <$> pts) by (by apply list_elem_of_fmap_2).
  assert (p.2 ∈ snd <$> pts) by (by apply list_elem_of_fmap_2).
  auto.
Qed.
End GeoBox.

Lemma GeoInfo_box_contains_points_witness :
  exists lon_min lon_max lat_min lat_max : float,
    GeoInfo_add_all GeoInfo.init [(10, 20); (10.5, 20.5); (9, 21)]%float
      = Ok (GeoInfo.Build (MaxMin.Build (Some lon_min) (Some lon_max))
              (MaxMin.Build (Some lat_min) (Some lat_max)))
    /\ lon_min ∈ fst <$> [(10, 20); (10.5, 20.5); (9, 21)]%float
    /\ lon_max ∈ fst <$> [(10, 20); (10.5, 20.5); (9, 21)]%float
    /\ lat_min ∈ snd <$> [(10, 20); (10.5, 20.5); (9, 21)]%float
    /\ lat_max ∈ snd <$> [(10, 20); (10.5, 20.5); (9, 21)]%float
    /\ forall p, p ∈ [(10, 20); (10.5, 20.5); (9, 21)]%float ->
         py_lt (fst p) lon_min = false /\ py_lt lon_max (fst p) = false
         /\ py_lt (snd p) lat_min = false /\ py_lt lat_max (snd p) = false.
Proof.
  apply (GeoInfo_box_contains_points float_ltb_irrefl float_ltb_trans).
  discriminate.
Defined.

(** ** Histograms *)

Lemma count_of_incr `{Countable K} (d : gmap K Z) (k k' : K) :
  count_of (incr d k) k' = count_of d k' + (if decide (k = k') then 1 else 0).
Proof.
  unfold count_of, incr. destruct (decide (k = k')) as [->|Hne].
  - by rewrite lookup_insert_eq.
  - rewrite lookup_insert_ne by done. lia.
Qed.

Lemma lookup_incr_None `{Countable K} (d : gmap K Z) (k k' : K) :
  incr d k !! k' = None <-> k <> k' /\ d !! k' = None.
Proof.
  unfold incr. destruct (decide (k = k')) as [->|Hne].
  - rewrite lookup_insert_eq. split; [done|]. by intros [? _].
  - rewrite lookup_insert_ne by done. split; [done|]. by intros [_ ?].
Qed.

Lemma occurrences_snoc {A K} `{EqDecision K} (f : A -> K) (k : K)
    (l : list A) (a : A) :
  occurrences f k (l ++ [a])
  = occurrences f k l + (if decide (f a = k) then 1 else 0).
Proof.
  unfold occurrences. rewrite filter_app, length_app.
  rewrite filter_cons, filter_nil. destruct (decide (f a = k)); cbn; lia.
Qed.

Section FleetHistogram.
Context {V : Type} `{PyOrd V}.

Lemma SentencesInfo_add_step (st : SentencesInfo.t V) (s : Sentence.t V) :
  geo_paired (SentencesInfo.geo_info st) ->
  exists st1,
    SentencesInfo.add st s = Ok st1
    /\ SentencesInfo.sentence_count st1 = SentencesInfo.sentence_count st + 1
    /\ SentencesInfo.type_counts st1
       = incr (SentencesInfo.type_counts st) (Sentence.type_id s)
    /\ SentencesInfo.sender_counts st1
       = incr (SentencesInfo.sender_counts st) (Sentence.getitem s "mmsi")
    /\ geo_paired (SentencesInfo.geo_info st1).
Proof.
  intros [Hlon Hlat]. unfold SentencesInfo.add.
  destruct (Sentence.location s) as [loc|].
  - destruct (GeoInfo_add_paired _ loc Hlon Hlat) as (g' & -> & Hlon' & Hlat').
    by eexists.
  - by eexists.
Qed.

Lemma SentencesInfo_histogram_inv (l seen : list (Sentence.t V))
    (st : SentencesInfo.t V) :
  geo_paired (SentencesInfo.geo_info st) ->
  (forall t, count_of (SentencesInfo.type_counts st) t
             = occurrences Sentence.type_id t seen) ->
  (forall t, SentencesInfo.type_counts st !! t = None
             <-> occurrences Sentence.type_id t seen = 0) ->
  (forall m, count_of (SentencesInfo.sender_counts st) m
             = occurrences (fun s => Sentence.getitem s "mmsi") m seen) ->
  (forall m, SentencesInfo.sender_counts st !! m = None
             <-> occurrences (fun s => Sentence.getitem s "mmsi") m seen = 0) ->
  exists st',
    SentencesInfo.add_all st l = Ok st'
    /\ (forall t, count_of (SentencesInfo.type_counts st') t
                  = occurrences Sentence.type_id t (seen ++ l))
    /\ (forall t, SentencesInfo.type_counts st' !! t = None
                  <-> occurrences Sentence.type_id t (seen ++ l) = 0)
    /\ (forall m, count_of (SentencesInfo.sender_counts st') m
                  = occurrences (fun s => Sentence.getitem s "mmsi") m
                      (seen ++ l))
    /\ (forall m, SentencesInfo.sender_counts st' !! m = None
                  <-> occurrences (fun s => Sentence.getitem s "mmsi") m
                        (seen ++ l) = 0).
Proof.
  revert seen st.
  induction l as [|s l IH]; intros seen st Hgeo Hty Hty0 Hsd Hsd0.
  - exists st. by rewrite app_nil_r.
  - cbn [SentencesInfo.add_all].
    destruct (SentencesInfo_add_step st s Hgeo)
      as (st1 & -> & _ & Hty1 & Hsd1 & Hgeo1).
    cbn [mbind result_bind].
    destruct (IH (seen ++ [s]) st1) as (st' & Hall & H1 & H2 & H3 & H4);
      try done.
    + intros t. by rewrite Hty1, count_of_incr, Hty, occurrences_snoc.
    + intros t. rewrite Hty1, lookup_incr_None, Hty0, occurrences_snoc.
      unfold occurrences.
      destruct (decide (Sentence.type_id s = t));
        (split; [intros [? ?]|intros; split]); try done; lia.
    + intros m. by rewrite Hsd1, count_of_incr, Hsd, occurrences_snoc.
    + intros m. rewrite Hsd1, lookup_incr_None, Hsd0, occurrences_snoc.
      unfold occurrences.
      destruct (decide (Sentence.getitem s "mmsi" = m));
        (split; [intros [? ?]|intros; split]); try done; lia.
    + exists st'. rewrite <- !app_assoc in H1, H2, H3, H4. done.
Qed.

(** X8. The fleet aggregator takes any stream; afterwards each type's
    count is the number of sentences of that type, each sender's count
    the number of sentences of that sender ([None] for sentences without
    one), and a key is absent exactly when nothing was counted for it. *)
Theorem SentencesInfo_histograms (l : list (Sentence.t V)) :
  exists st,
    SentencesInfo.add_all SentencesInfo.init l = Ok st
    /\ (forall t, count_of (SentencesInfo.type_counts st) t
                  = occurrences Sentence.type_id t l)
    /\ (forall t, SentencesInfo.type_counts st !! t = None
                  <-> occurrences Sentence.type_id t l = 0)
    /\ (forall m, count_of (SentencesInfo.sender_counts st) m
                  = occurrences (fun s => Sentence.getitem s "mmsi") m l)
    /\ (forall m, SentencesInfo.sender_counts st !! m = None
                  <-> occurrences (fun s => Sentence.getitem s "mmsi") m l = 0).
Proof.
  apply (SentencesInfo_histogram_inv l [] SentencesInfo.init); try done.
Qed.
End FleetHistogram.

(** ** The sender aggregator over a stream *)

Section Sender.
Context {V : Type}.

Lemma SenderInfo_add_complete (si : SenderInfo.t) (s : Sentence.t V) :
  voyage_complete s = true ->
  exists si',
    SenderInfo.add si s = Ok si'
    /\ SenderInfo.mmsi si'
       = (if opt_str_truthy (SenderInfo.mmsi si) then SenderInfo.mmsi si
          else Sentence.getitem s "mmsi")
    /\ SenderInfo.sentence_count si' = SenderInfo.sentence_count si + 1
    /\ SenderInfo.type_counts si'
       = incr (SenderInfo.type_counts si) (Sentence.type_id s)
    /\ (Sentence.type_id s <> 5 -> SenderInfo.fields si' = SenderInfo.fields si).
Proof.
  unfold voyage_complete, SenderInfo.add.
  destruct (Z.eqb_spec (Sentence.type_id s) 5) as [H5|H5].
  - destruct (Sentence.getitem s "shipname") as [n|]; [|done].
    destruct (Sentence.getitem s "destination") as [d|]; [|done]. intros _.
    unfold Fields.setitem.
    destruct (str_truthy "shipname" && _ && _); cbn;
      destruct (str_truthy (strip d) && _); cbn; eexists;
      (split; [reflexivity|]); cbn; by destruct (opt_str_truthy _).
  - intros _. eexists. split; [reflexivity|]. cbn.
    by destruct (opt_str_truthy _).
Qed.

Lemma SenderInfo_add_incomplete (si : SenderInfo.t) (s : Sentence.t V) :
  voyage_complete s = false -> SenderInfo.add si s = Raise AttributeError.
Proof.
  unfold voyage_complete. destruct (Z.eqb_spec (Sentence.type_id s) 5); [|done].
  intros Hc. apply SenderInfo_absent_field_raises; [done|].
  destruct (Sentence.getitem s "shipname"); [|by left].
  destruct (Sentence.getitem s "destination"); [done|by right].
Qed.

Lemma SenderInfo_add_all_snoc (si : SenderInfo.t) (l : list (Sentence.t V))
    (s : Sentence.t V) :
  SenderInfo.add_all si (l ++ [s])
  = (si' ← SenderInfo.add_all si l; SenderInfo.add si' s).
Proof.
  revert si. induction l as [|a l IH]; intros si; cbn.
  - by destruct (SenderInfo.add si s).
  - destruct (SenderInfo.add si a); cbn; [apply IH|done].
Qed.

(** X9. The sender aggregator takes a stream exactly when every voyage
    sentence in it has both its ship name and its destination: then it
    has counted every sentence, by type; otherwise it raises
    [AttributeError]. *)
Theorem SenderInfo_add_all_outcome (l : list (Sentence.t V)) :
  if forallb voyage_complete l
  then exists si,
         SenderInfo.add_all SenderInfo.init l = Ok si
         /\ SenderInfo.sentence_count si = Z.of_nat (length l)
         /\ forall t, count_of (SenderInfo.type_counts si) t
                      = occurrences Sentence.type_id t l
  else SenderInfo.add_all SenderInfo.init l = Raise AttributeError.
Proof.
  induction l as [|s l IH] using rev_ind; [by eexists|].
  rewrite forallb_app, SenderInfo_add_all_snoc. cbn [forallb].
  rewrite andb_true_r.
  destruct (forallb voyage_complete l).
  - destruct IH as (si & -> & Hn & Hty). cbn [mbind result_bind andb].
    destruct (voyage_complete s) eqn:Hs.
    + destruct (SenderInfo_add_complete si s Hs)
        as (si' & -> & _ & Hn' & Hty' & _).
      eexists. split; [reflexivity|]. split.
      * rewrite Hn', Hn, length_app. cbn. lia.
      * intros t. by rewrite Hty', count_of_incr, Hty, occurrences_snoc.
    + by apply SenderInfo_add_incomplete.
  - by rewrite IH.
Qed.

(** X10. The identifier the sender aggregator reports is the one of the
    first sentence that has a non-empty identifier; later sentences never
    change it. *)
Theorem SenderInfo_mmsi_first (l1 l2 : list (Sentence.t V)) (s : Sentence.t V)
    (si : SenderInfo.t) :
  Forall (fun s' => opt_str_truthy (Sentence.getitem s' "mmsi") = false) l1 ->
  opt_str_truthy (Sentence.getitem s "mmsi") = true ->
  SenderInfo.add_all SenderInfo.init (l1 ++ s :: l2) = Ok si ->
  SenderInfo.mmsi si = Sentence.getitem s "mmsi".
Proof.
  intros Hl1 Hs.
  assert (Hkeep : forall (l : list (Sentence.t V)) (si0 si' : SenderInfo.t),
            opt_str_truthy (SenderInfo.mmsi si0) = true ->
            SenderInfo.add_all si0 l = Ok si' ->
            SenderInfo.mmsi si' = SenderInfo.mmsi si0).
  { induction l as [|a l IH]; intros si0 si' Ht; cbn; [by intros [= <-]|].
    destruct (voyage_complete a) eqn:Ha.
    - destruct (SenderInfo_add_complete si0 a Ha) as (si1 & -> & Hm & _).
      rewrite Ht in Hm. cbn. intros Hall.
      rewrite (IH si1 si') by (by rewrite ?Hm). done.
    - by rewrite (SenderInfo_add_incomplete si0 a Ha). }
  assert (Hnone : forall (l : list (Sentence.t V)) (si0 si' : SenderInfo.t),
            Forall (fun s' => opt_str_truthy (Sentence.getitem s' "mmsi") = false) l ->
            opt_str_truthy (SenderInfo.mmsi si0) = false ->
            SenderInfo.add_all si0 l = Ok si' ->
            opt_str_truthy (SenderInfo.mmsi si') = false).
  { induction l as [|a l IH]; intros si0 si' Hl Ht; cbn; [by intros [= <-]|].
    apply Forall_cons in Hl as [Ha Hl].
    destruct (voyage_complete a) eqn:Hc.
    - destruct (SenderInfo_add_complete si0 a Hc) as (si1 & -> & Hm & _).
      rewrite Ht in Hm. cbn. apply IH; [done|]. by rewrite Hm.
    - by rewrite (SenderInfo_add_incomplete si0 a Hc). }
  assert (Happ : forall (l l' : list (Sentence.t V)) (si0 : SenderInfo.t),
            SenderInfo.add_all si0 (l ++ l')
            = (si' ← SenderInfo.add_all si0 l; SenderInfo.add_all si' l')).
  { induction l as [|a l IH]; intros l' si0; cbn.
    - by destruct (SenderInfo.add_all si0 l').
    - destruct (SenderInfo.add si0 a); cbn; [apply IH|done]. }
  rewrite Happ.
  destruct (SenderInfo.add_all SenderInfo.init l1) as [si1|] eqn:H1; cbn; [|done].
  pose proof (Hnone l1 SenderInfo.init si1 Hl1 eq_refl H1) as Hf.
  cbn [SenderInfo.add_all].
  destruct (voyage_complete s) eqn:Hc.
  - destruct (SenderInfo_add_complete si1 s Hc) as (si2 & -> & Hm & _).
    rewrite Hf in Hm. cbn. intros Hall.
    rewrite (Hkeep l2 si2 si) by (by rewrite ?Hm). done.
  - by rewrite (SenderInfo_add_incomplete si1 s Hc).
Qed.
End Sender.

Lemma SenderInfo_mmsi_first_witness :
  exists si,
    SenderInfo.add_all SenderInfo.init
      ([position "" 10 20] ++ position "A" 10.5 20.5 :: [voyage "B" "X" "Y"])
    = Ok si
    /\ SenderInfo.mmsi si = Some "A".
Proof.
  eexists. split; [vm_compute; reflexivity|].
  apply (SenderInfo_mmsi_first [position "" 10 20] [voyage "B" "X" "Y"]
           (position "A" 10.5 20.5)).
  - repeat constructor.
  - reflexivity.
  - vm_compute. reflexivity.
Defined.

(** ** What [info] accumulates *)

Lemma SentencesInfo_add_all_snoc {V} `{PyOrd V} (st : SentencesInfo.t V)
    (l : list (Sentence.t V)) (s : Sentence.t V) :
  SentencesInfo.add_all st (l ++ [s])
  = (st' ← SentencesInfo.add_all st l; SentencesInfo.add st' s).
Proof.
  revert st. induction l as [|a l IH]; intros st; cbn.
  - by destruct (SentencesInfo.add st s).
  - destruct (SentencesInfo.add st a); cbn; [apply IH|done].
Qed.

Lemma DensityMap_add_all_snoc (dm : DensityMap.t) (l : list (float * float))
    (p : float * float) :
  DensityMap_add_all dm (l ++ [p])
  = (dm' ← DensityMap_add_all dm l; DensityMap.add dm' p).
Proof.
  revert dm. induction l as [|a l IH]; intros dm; cbn.
  - by destruct (DensityMap.add dm p).
  - destruct (DensityMap.add dm a); cbn; [apply IH|done].
Qed.

Lemma info_consume_all_snoc (individual show_map : bool) (st : info_state)
    (l : list (Sentence.t float)) (s : Sentence.t float) :
  info_consume_all individual show_map st (l ++ [s])
  = (st' ← info_consume_all individual show_map st l;
     info_consume individual show_map st' s).
Proof.
  revert st. induction l as [|a l IH]; intros st; cbn.
  - by destruct (info_consume individual show_map st s).
  - destruct (info_consume individual show_map st a); cbn; [apply IH|done].
Qed.

Lemma info_consume_Ok (individual show_map : bool) (st0 st : info_state)
    (s : Sentence.t float) :
  info_consume individual show_map st0 s = Ok st ->
  SentencesInfo.add (sentences_info st0) s = Ok (sentences_info st)
  /\ (if show_map then
        match Sentence.location s with
        | Some loc => DensityMap.add (map_info st0) loc
        | None => Ok (map_info st0)
        end
      else Ok (map_info st0)) = Ok (map_info st)
  /\ (if individual then
        sender ← SenderInfo.add
                   (default SenderInfo.init
                      (sender_info st0 !! Sentence.getitem s "mmsi")) s;
        Ok (<[Sentence.getitem s "mmsi" := sender]> (sender_info st0))
      else Ok (sender_info st0)) = Ok (sender_info st).
Proof.
  unfold info_consume.
  destruct (SentencesInfo.add (sentences_info st0) s) as [si|];
    cbn [mbind result_bind]; [|done].
  match goal with
  | |- (?m ≫= _) = _ -> _ => destruct m as [mi|]; cbn [mbind result_bind]; [|done]
  end.
  match goal with
  | |- (?m ≫= _) = _ -> _ => destruct m as [sd|]; cbn [mbind result_bind]; [|done]
  end.
  by intros [= <-].
Qed.

Lemma info_consume_all_inv (individual show_map : bool)
    (l : list (Sentence.t float)) (st : info_state) :
  info_consume_all individual show_map info_init l = Ok st ->
  SentencesInfo.add_all SentencesInfo.init l = Ok (sentences_info st)
  /\ DensityMap_add_all DensityMap.default
       (if show_map then omap Sentence.location l else [])
     = Ok (map_info st)
  /\ forall k,
       match sender_info st !! k with
       | Some si =>
           individual = true /\ of_sender k l <> []
           /\ SenderInfo.add_all SenderInfo.init (of_sender k l) = Ok si
       | None => individual = false \/ of_sender k l = []
       end.
Proof.
  revert st. induction l as [|s l IH] using rev_ind; intros st.
  - cbn. intros [= <-]. cbn. split; [done|]. split; [by destruct show_map|].
    intros k. rewrite lookup_empty. by right.
  - rewrite info_consume_all_snoc.
    destruct (info_consume_all individual show_map info_init l) as [st0|];
      cbn [mbind result_bind]; [|done].
    destruct (IH st0 eq_refl) as (Hfleet & Hmap & Hsenders).
    intros (Hsi & Hmi & Hsd)%info_consume_Ok.
    split; [|split].
    + by rewrite SentencesInfo_add_all_snoc, Hfleet.
    + destruct show_map; [|by injection Hmi as <-].
      rewrite omap_app.
      change (omap Sentence.location [s])
        with (match Sentence.location s with
              | Some loc => [loc]
              | None => []
              end).
      destruct (Sentence.location s) as [loc|].
      * by rewrite DensityMap_add_all_snoc, Hmap.
      * rewrite app_nil_r. by injection Hmi as <-.
    + intros k. unfold of_sender in *.
      rewrite filter_app, filter_cons, filter_nil.
      destruct individual.
      * destruct (SenderInfo.add _ s) as [sender|] eqn:Hadd;
          cbn [mbind result_bind] in Hsd; [|done].
        injection Hsd as <-.
        destruct (decide (Sentence.getitem s "mmsi" = k)) as [<-|Hne].
        -- rewrite lookup_insert_eq. split; [done|].
           split; [by destruct (filter _ l)|].
           rewrite SenderInfo_add_all_snoc.
           specialize (Hsenders (Sentence.getitem s "mmsi")).
           destruct (sender_info st0 !! _) as [si0|].
           ++ by destruct Hsenders as (_ & _ & ->).
           ++ by destruct Hsenders as [?| ->].
        -- rewrite lookup_insert_ne by done. rewrite app_nil_r.
           apply Hsenders.
      * injection Hsd as <-. specialize (Hsenders k).
        destruct (sender_info st0 !! k) as [si0|].
        -- by destruct Hsenders as (? & _).
        -- by left.
Qed.

(** X11. When the loop of [info] gets through a stream, the fleet
    aggregator is the one the whole stream gives, the map (under [--map])
    the one the locations of the stream give, and (under [--individual])
    there is one sender aggregator per sender of the stream, each the one
    that sender's own sentences give, in order. *)
Theorem info_consume_all_composes (individual show_map : bool)
    (l : list (Sentence.t float)) (st : info_state) :
  info_consume_all individual show_map info_init l = Ok st ->
  SentencesInfo.add_all SentencesInfo.init l = Ok (sentences_info st)
  /\ DensityMap_add_all DensityMap.default
       (if show_map then omap Sentence.location l else [])
     = Ok (map_info st)
  /\ forall k,
       match sender_info st !! k with
       | Some si =>
           individual = true /\ of_sender k l <> []
           /\ SenderInfo.add_all SenderInfo.init (of_sender k l) = Ok si
       | None => individual = false \/ of_sender k l = []
       end.
Proof. apply info_consume_all_inv. Qed.

Lemma info_consume_all_composes_witness :
  exists st,
    info_consume_all true true info_init scenario = Ok st
    /\ SentencesInfo.add_all SentencesInfo.init scenario
       = Ok (sentences_info st)
    /\ DensityMap_add_all DensityMap.default
         (omap Sentence.location scenario)
       = Ok (map_info st)
    /\ forall k,
         match sender_info st !! k with
         | Some si =>
             true = true /\ of_sender k scenario <> []
             /\ SenderInfo.add_all SenderInfo.init (of_sender k scenario)
                = Ok si
         | None => true = false \/ of_sender k scenario = []
         end.
Proof.
  eexists. split; [vm_compute; reflexivity|].
  apply (info_consume_all_composes true true scenario).
  vm_compute. reflexivity.
Defined.

(** ** Strings: reversal and stripping *)

Lemma string_append_cons (c : ascii) (s t : string) :
  String c s +:+ t = String c (s +:+ t).
Proof. reflexivity. Qed.

Lemma string_append_nil_r (s : string) : s +:+ "" = s.
Proof. induction s as [|c s IH]; [done|]. by rewrite string_append_cons, IH. Qed.

Lemma string_append_assoc (a b c : string) : (a +:+ b) +:+ c = a +:+ (b +:+ c).
Proof.
  induction a as [|x a IH]; [done|]. by rewrite !string_append_cons, IH.
Qed.

Lemma string_rev_app_append (s acc : string) :
  String.rev_app s acc = String.rev s +:+ acc.
Proof.
  unfold String.rev. revert acc.
  induction s as [|c s IH]; intros acc; [done|]. cbn [String.rev_app].
  by rewrite (IH (String c acc)), (IH (String c "")), string_append_assoc.
Qed.

Lemma string_rev_cons (c : ascii) (s : string) :
  String.rev (String c s) = String.rev s +:+ String c "".
Proof. unfold String.rev at 1. cbn [String.rev_app]. apply string_rev_app_append. Qed.

Lemma string_rev_append (a b : string) :
  String.rev (a +:+ b) = String.rev b +:+ String.rev a.
Proof.
  induction a as [|c a IH]; [by rewrite string_append_nil_r|].
  by rewrite string_append_cons, !string_rev_cons, IH, string_append_assoc.
Qed.

Lemma string_rev_involutive (s : string) : String.rev (String.rev s) = s.
Proof.
  induction s as [|c s IH]; [done|]. by rewrite string_rev_cons, string_rev_append, IH.
Qed.

Lemma lstrip_split (s : string) :
  exists a, s = a +:+ lstrip s /\ all_space a = true.
Proof.
  induction s as [|c s (a & Hs & Ha)]; [by exists ""|]. cbn [lstrip].
  destruct (py_isspace c) eqn:Hc; [|by exists ""].
  exists (String c a). cbn [all_space]. by rewrite string_append_cons, Hc, Ha, <- Hs.
Qed.

Lemma lstrip_head (s : string) : head_ok (lstrip s) = true.
Proof.
  induction s as [|c s IH]; [done|]. cbn [lstrip].
  destruct (py_isspace c) eqn:Hc; [done|]. cbn. by rewrite Hc.
Qed.

Lemma lstrip_id (s : string) : head_ok s = true -> lstrip s = s.
Proof. destruct s as [|c s]; [done|]. cbn. by destruct (py_isspace c). Qed.

Lemma head_ok_append (a b : string) :
  a <> EmptyString -> head_ok (a +:+ b) = head_ok a.
Proof. by destruct a. Qed.

Lemma string_rev_empty (s : string) : String.rev s = EmptyString -> s = EmptyString.
Proof. intros H. by rewrite <- (string_rev_involutive s), H. Qed.

Lemma rstrip_head (s : string) : head_ok s = true -> head_ok (rstrip s) = true.
Proof.
  intros Hs. unfold rstrip.
  destruct (lstrip_split (String.rev s)) as (a & Hsplit & _).
  apply (f_equal String.rev) in Hsplit.
  rewrite string_rev_involutive, string_rev_append in Hsplit.
  destruct (String.rev (lstrip (String.rev s))) as [|c u] eqn:Hu; [done|].
  rewrite Hsplit in Hs. by rewrite head_ok_append in Hs.
Qed.

Lemma rstrip_idem (s : string) : rstrip (rstrip s) = rstrip s.
Proof.
  unfold rstrip. rewrite string_rev_involutive. f_equal. apply lstrip_id, lstrip_head.
Qed.

Lemma strip_idem (s : string) : strip (strip s) = strip s.
Proof.
  unfold strip. rewrite (lstrip_id (rstrip _)); [apply rstrip_idem|].
  apply rstrip_head, lstrip_head.
Qed.

Lemma all_space_append (a b : string) :
  all_space (a +:+ b) = all_space a && all_space b.
Proof.
  induction a as [|c a IH]; [done|].
  rewrite string_append_cons. cbn [all_space]. by rewrite IH, andb_assoc.
Qed.

Lemma all_space_rev (s : string) : all_space (String.rev s) = all_space s.
Proof.
  induction s as [|c s IH]; [done|].
  rewrite string_rev_cons, all_space_append, IH. cbn [all_space].
  by rewrite andb_true_r, andb_comm.
Qed.

(** What [strip] returns: the string without a whitespace prefix and a
    whitespace suffix, and with no whitespace left at either end. *)
Lemma strip_spec (s : string) :
  exists a b,
    s = a +:+ strip s +:+ b
    /\ all_space a = true /\ all_space b = true
    /\ head_ok (strip s) = true /\ head_ok (String.rev (strip s)) = true.
Proof.
  destruct (lstrip_split s) as (a & Ha & Hsa).
  destruct (lstrip_split (String.rev (lstrip s))) as (b & Hb & Hsb).
  apply (f_equal String.rev) in Hb. rewrite string_rev_involutive, string_rev_append in Hb.
  exists a, (String.rev b). unfold strip, rstrip at 1 2.
  split; [by rewrite <- Hb|]. split; [done|].
  split; [by rewrite all_space_rev|].
  split; [apply rstrip_head, lstrip_head|].
  unfold rstrip. rewrite string_rev_involutive. apply lstrip_head.
Qed.

Lemma setitem_values (f f' : Fields.t) (key raw : string) :
  Fields.setitem f key (Some raw) = Ok f' ->
  Fields.values f'
  = if decide (key <> EmptyString /\ strip raw <> EmptyString)
    then <[key := strip raw]> (Fields.values f) else Fields.values f.
Proof.
  unfold Fields.setitem.
  destruct key as [|c key], (strip raw) as [|x v]; cbn; intros [= <-].
  - rewrite decide_False; [done|]. by intros [? _].
  - rewrite decide_False; [done|]. by intros [? _].
  - rewrite decide_False; [done|]. by intros [_ ?].
  - by rewrite decide_True.
Qed.

(** X12. Storing a string value never fails; afterwards the key reads
    back the stripped value if both the key and the stripped value are
    non-empty, and every other lookup, that of the key itself included
    when nothing was stored, is as before. *)
Theorem Fields_setitem_getitem (f : Fields.t) (key raw key' : string) :
  exists f',
    Fields.setitem f key (Some raw) = Ok f'
    /\ Fields.getitem f' key'
       = if decide (key' = key /\ key <> EmptyString
                    /\ strip raw <> EmptyString)
         then Ok (strip raw) else Fields.getitem f key'.
Proof.
  destruct (Fields.setitem f key (Some raw)) as [f'|e] eqn:Hset.
  - exists f'. split; [done|]. unfold Fields.getitem.
    rewrite (setitem_values _ _ _ _ Hset).
    destruct (decide (key <> EmptyString /\ strip raw <> EmptyString))
      as [[Hk Hv]|Hno].
    + destruct (decide (key' = key)) as [->|Hne].
      * rewrite lookup_insert_eq. by rewrite decide_True.
      * rewrite lookup_insert_ne by done. rewrite decide_False; [done|].
        by intros [? _].
    + rewrite decide_False; [done|]. intros (_ & ? & ?). by apply Hno.
  - unfold Fields.setitem in Hset. by destruct (_ && _ && _).
Qed.

Section Provenance.
Context {V : Type}.

(** X13. Every field the sender aggregator holds is a ship name or a
    destination, is not empty, has no whitespace left to strip, and is
    the stripped value of that field in some voyage sentence of the
    stream. *)
Theorem SenderInfo_fields_provenance (l : list (Sentence.t V))
    (si : SenderInfo.t) :
  SenderInfo.add_all SenderInfo.init l = Ok si ->
  forall key v,
    Fields.values (SenderInfo.fields si) !! key = Some v ->
    (key = "shipname" \/ key = "destination")
    /\ v <> EmptyString /\ strip v = v
    /\ exists s raw,
         s ∈ l /\ Sentence.type_id s = 5
         /\ Sentence.getitem s key = Some raw /\ v = strip raw.
Proof.
  revert si. induction l as [|s l IH] using rev_ind; intros si.
  - intros [= <-] key v. cbn. by rewrite lookup_empty.
  - rewrite SenderInfo_add_all_snoc.
    destruct (SenderInfo.add_all SenderInfo.init l) as [si0|];
      cbn [mbind result_bind]; [|done].
    specialize (IH si0 eq_refl). intros Hadd key v Hv.
    assert (Hold : Fields.values (SenderInfo.fields si0) !! key = Some v ->
              (key = "shipname" \/ key = "destination")
              /\ v <> EmptyString /\ strip v = v
              /\ exists s0 raw,
                   s0 ∈ l ++ [s] /\ Sentence.type_id s0 = 5
                   /\ Sentence.getitem s0 key = Some raw /\ v = strip raw).
    { intros Hv0. destruct (IH key v Hv0) as (Hk & Hne & Hst & s0 & raw & Hin & H5 & Hraw & ->).
      repeat (split; [done|]). exists s0, raw.
      split; [apply elem_of_app; by left|done]. }
    destruct (decide (Sentence.type_id s = 5)) as [H5|H5].
    + destruct (Sentence.getitem s "shipname") as [n|] eqn:Hn;
        [|by rewrite SenderInfo_absent_field_raises in Hadd by auto].
      destruct (Sentence.getitem s "destination") as [d|] eqn:Hd;
        [|by rewrite SenderInfo_absent_field_raises in Hadd by auto].
      destruct (add_voyage_fields si0 s n d H5 Hn Hd)
        as (si' & f1 & Hadd' & Hf1 & Hf2).
      rewrite Hadd' in Hadd. injection Hadd as <-.
      apply setitem_values in Hf1, Hf2. rewrite Hf2 in Hv.
      assert (Hnew : forall k raw, Sentence.getitem s k = Some raw ->
                k = "shipname" \/ k = "destination" ->
                strip raw <> EmptyString ->
                (k = "shipname" \/ k = "destination")
                /\ strip raw <> EmptyString /\ strip (strip raw) = strip raw
                /\ exists s0 raw0,
                     s0 ∈ l ++ [s] /\ Sentence.type_id s0 = 5
                     /\ Sentence.getitem s0 k = Some raw0
                     /\ strip raw = strip raw0).
      { intros k raw Hraw Hk Hne. split; [done|]. split; [done|].
        split; [apply strip_idem|]. exists s, raw.
        split; [apply elem_of_app; right; by apply list_elem_of_singleton|].
        by destruct Hk as [-> | ->]. }
      case_decide as Hcd.
      * destruct (decide (key = "destination")) as [->|Hnd].
        -- rewrite lookup_insert_eq in Hv. injection Hv as <-.
           apply Hnew; [done|by right|by destruct Hcd].
        -- rewrite lookup_insert_ne in Hv by done. rewrite Hf1 in Hv.
           case_decide as Hcn; [|by apply Hold].
           destruct (decide (key = "shipname")) as [->|Hns].
           ++ rewrite lookup_insert_eq in Hv. injection Hv as <-.
              apply Hnew; [done|by left|by destruct Hcn].
           ++ rewrite lookup_insert_ne in Hv by done. by apply Hold.
      * rewrite Hf1 in Hv. case_decide as Hcn; [|by apply Hold].
        destruct (decide (key = "shipname")) as [->|Hns].
        -- rewrite lookup_insert_eq in Hv. injection Hv as <-.
           apply Hnew; [done|by left|by destruct Hcn].
        -- rewrite lookup_insert_ne in Hv by done. by apply Hold.
    + assert (Hc : voyage_complete s = true).
      { unfold voyage_complete. by destruct (Z.eqb_spec (Sentence.type_id s) 5). }
      destruct (SenderInfo_add_complete si0 s Hc) as (si' & Hadd' & _ & _ & _ & Hf).
      rewrite Hadd' in Hadd. injection Hadd as <-.
      rewrite (Hf H5) in Hv. by apply Hold.
Qed.
End Provenance.

Lemma SenderInfo_fields_provenance_witness :
  exists si,
    SenderInfo.add_all SenderInfo.init
      [voyage "B" " X " "Y"; position "B" 10 20] = Ok si
    /\ forall key v,
         Fields.values (SenderInfo.fields si) !! key = Some v ->
         (key = "shipname" \/ key = "destination")
         /\ v <> EmptyString /\ strip v = v
         /\ exists s raw,
              s ∈ [voyage "B" " X " "Y"; position "B" 10 20]
              /\ Sentence.type_id s = 5
              /\ Sentence.getitem s key = Some raw /\ v = strip raw.
Proof.
  eexists. split; [vm_compute; reflexivity|].
  apply (SenderInfo_fields_provenance
           [voyage "B" " X " "Y"; position "B" 10 20]).
  vm_compute. reflexivity.
Defined.

(** ** The commands *)

Lemma print_lines_run (ls : list string) (w : list string) :
  for_each ls print (Sink w None) = (Ok tt, Sink (w ++ ls) None)
  /\ forall k : nat,
       for_each ls print (Sink w (Some k))
       = if decide (length ls <= k)%nat
         then (Ok tt, Sink (w ++ ls) (Some (k - length ls)%nat))
         else (Raise BrokenPipeError, Sink (w ++ take k ls) (Some 0%nat)).
Proof.
  revert w. induction ls as [|x ls IH]; intros w.
  - cbn. rewrite app_nil_r. split; [done|]. intros k. by rewrite Nat.sub_0_r.
  - cbn [for_each]. unfold mbind, IO_bind. split.
    + cbn. destruct (IH (w ++ [x])) as [-> _]. by rewrite <- app_assoc.
    + intros [|k]; cbn; [by rewrite app_nil_r|].
      destruct (IH (w ++ [x])) as [_ ->].
      destruct (decide (length ls <= k)%nat);
        destruct (decide (S (length ls) <= S k)%nat); try lia;
        by rewrite <- app_assoc.
Qed.

Lemma guarded_print_sentence_source (text : py_text) :
  writes_or_exits (text_lines text)
    (wild_disregard_for BrokenPipeError (print_sentence_source text)).
Proof.
  intros w. unfold wild_disregard_for, print_sentence_source.
  destruct (print_lines_run (text_lines text) w) as [-> Hk]. split; [done|].
  intros k. rewrite Hk. by destruct (decide (length _ <= k)%nat).
Qed.

Lemma writes_or_exits_nothing : writes_or_exits [] (mret tt).
Proof.
  intros w. cbn. rewrite app_nil_r. split; [done|]. intros k.
  by rewrite Nat.sub_0_r.
Qed.

Lemma for_each_writes_or_exits {A} (l : list A) (body : A -> IO unit)
    (lines : A -> list string) :
  (forall a, writes_or_exits (lines a) (body a)) ->
  writes_or_exits (concat (lines <$> l)) (for_each l body).
Proof.
  intros Hbody. induction l as [|a l IH]; [apply writes_or_exits_nothing|].
  intros w. cbn [for_each fmap list_fmap concat]. unfold mbind, IO_bind.
  destruct (Hbody a w) as [Ha Hak]. rewrite Ha. split.
  - destruct (IH (w ++ lines a)) as [-> _]. by rewrite app_assoc.
  - intros k. rewrite Hak, length_app.
    destruct (decide (length (lines a) <= k)%nat).
    + destruct (IH (w ++ lines a)) as [_ ->].
      destruct (decide (length (concat (lines <$> l)) <= k - length (lines a))%nat);
        destruct (decide (length (lines a) + length (concat (lines <$> l)) <= k)%nat);
        try lia.
      * by rewrite app_assoc, Nat.sub_add_distr.
      * by rewrite take_app_ge, app_assoc by lia.
    + destruct (decide (length (lines a) + length (concat (lines <$> l)) <= k)%nat);
        [lia|].
      by rewrite take_app_le by lia.
Qed.

Section CommandProps.
Variable text_of : Sentence.t float -> py_text.
Variable number_of : Sentence.t float -> string -> option float.

(** X14. [cat] writes the lines of every sentence, in order, and
    returns; when the consumer goes away after [k] lines it has written
    exactly the first [k] lines and ends by [SystemExit(0)]. *)
Theorem cat_writes_or_exits (sentences : list (Sentence.t float)) :
  writes_or_exits (all_lines text_of sentences) (cat text_of sentences).
Proof.
  apply for_each_writes_or_exits. intros s. apply guarded_print_sentence_source.
Qed.

Lemma py_truthy_foldl_and (x : py_value) (l : list py_value) :
  py_truthy (foldl py_and x l) = py_truthy x && forallb py_truthy l.
Proof.
  revert x. induction l as [|y l IH]; intros x; cbn; [by rewrite andb_true_r|].
  rewrite IH. unfold py_and. destruct (py_truthy x) eqn:Hx; [done|].
  by rewrite Hx.
Qed.

Lemma range_factor_truthy (bounds : float * float) (o : option float) :
  py_truthy (range_factor bounds o) = in_range (Some bounds) o.
Proof.
  destruct bounds as [lo hi], o as [x|]; [|done].
  unfold range_factor, py_and. cbn.
  destruct (x =? 0)%float eqn:Hx; cbn; [by rewrite Hx|done].
Qed.

Lemma grep_verdict (mmsi : list string) (sentence_type : option Z)
    (lon lat : option (float * float)) (s : Sentence.t float) :
  exists v,
    py_reduce py_and (grep_factors number_of mmsi sentence_type lon lat s)
    = Ok v
    /\ py_truthy v = grep_selects number_of mmsi sentence_type lon lat s.
Proof.
  unfold grep_factors. cbn [app py_reduce]. eexists. split; [reflexivity|].
  rewrite py_truthy_foldl_and, !forallb_app. cbn [py_truthy andb].
  unfold grep_selects. rewrite <- !andb_assoc. f_equal; [|f_equal; [|f_equal]].
  - destruct mmsi; cbn; [done|by rewrite andb_true_r].
  - destruct sentence_type as [t|]; [|done].
    destruct (t =? 0); cbn; [done|by rewrite andb_true_r].
  - destruct lon as [b|]; cbn; [|done].
    by rewrite range_factor_truthy, andb_true_r.
  - destruct lat as [b|]; cbn; [|done].
    by rewrite range_factor_truthy, andb_true_r.
Qed.

Lemma concat_filter_lines {A} (P : A -> bool) (lines : A -> list string)
    (l : list A) :
  concat ((fun a => if P a then lines a else []) <$> l)
  = concat (lines <$> filter (fun a => P a = true) l).
Proof.
  induction l as [|a l IH]; [done|].
  cbn [fmap list_fmap concat]. rewrite filter_cons, IH.
  destruct (P a) eqn:Ha.
  - by rewrite decide_True.
  - by rewrite decide_False.
Qed.

(** X15. [grep] writes what [cat] writes for the sentences that pass
    every filter given, and ends the same way when the consumer goes
    away: the identifier is among the given ones, the type is the given
    one (a given type of 0 filters nothing), and a coordinate under a
    range filter is present, not zero and strictly inside. *)
Theorem grep_writes_or_exits (sentences : list (Sentence.t float))
    (mmsi : list string) (mmsi_file : option (list string))
    (sentence_type : option Z) (lon lat : option (float * float)) :
  writes_or_exits
    (all_lines text_of
       (filter (fun s => grep_selects number_of (grep_mmsi mmsi mmsi_file)
                           sentence_type lon lat s = true) sentences))
    (grep text_of number_of sentences mmsi mmsi_file sentence_type lon lat).
Proof.
  unfold all_lines. rewrite <- concat_filter_lines.
  apply for_each_writes_or_exits. intros s.
  destruct (grep_verdict (grep_mmsi mmsi mmsi_file) sentence_type lon lat s)
    as (v & Hv & Ht).
  rewrite <- Ht. intros w. unfold wild_disregard_for, mbind, IO_bind, io_lift.
  rewrite Hv. destruct (py_truthy v).
  - apply (guarded_print_sentence_source (text_of s) w).
  - apply (writes_or_exits_nothing w).
Qed.

Lemma for_each_ext {A} (l : list A) (f g : A -> IO unit) :
  (forall a s, f a s = g a s) ->
  forall s, for_each l f s = for_each l g s.
Proof.
  intros Hfg. induction l as [|a l IH]; intros s; [done|].
  cbn [for_each]. unfold mbind, IO_bind. rewrite Hfg.
  destruct (g a s) as [[[]|e] s']; [apply IH|done].
Qed.

(** X16. Without any filter [grep] is [cat]; and so it is with
    [--type 0] alone, which filters nothing. *)
Theorem grep_without_filter_is_cat (sentences : list (Sentence.t float))
    (s : sink) :
  grep text_of number_of sentences [] None None None None s
  = cat text_of sentences s
  /\ grep text_of number_of sentences [] None (Some 0) None None s
     = cat text_of sentences s.
Proof.
  split; apply for_each_ext; intros a s'; unfold wild_disregard_for;
    cbn; unfold mbind, IO_bind, io_lift; cbn;
    by destruct (print_sentence_source (text_of a) s') as [[[]|e] s''].
Qed.
End CommandProps.

Lemma print_sentence_source_file_app (text : py_text) (file : list string) :
  print_sentence_source_file text file = file ++ text_lines text.
Proof.
  unfold print_sentence_source_file. revert file.
  induction (text_lines text) as [|x ls IH]; intros file; cbn.
  - by rewrite app_nil_r.
  - by rewrite IH, <- app_assoc.
Qed.

Lemma string_length_append (s t : string) :
  String.length (s +:+ t) = (String.length s + String.length t)%nat.
Proof.
  induction s as [|a s IH]; [done|].
  change (String a s +:+ t) with (String a (s +:+ t)).
  cbn [String.length]. by rewrite IH.
Qed.

Lemma append_inj_r (s t1 t2 : string) : t1 +:+ s = t2 +:+ s -> t1 = t2.
Proof.
  revert t2. induction t1 as [|a t1 IH]; intros [|b t2] H.
  - done.
  - apply (f_equal String.length) in H.
    rewrite !string_length_append in H. cbn in H. lia.
  - apply (f_equal String.length) in H.
    rewrite !string_length_append in H. cbn in H. lia.
  - change (String a (t1 +:+ s) = String b (t2 +:+ s)) in H.
    injection H as -> H. f_equal. by apply IH.
Qed.

Lemma burst_name_inj (fname ext k1 k2 : string) :
  burst_name fname ext k1 = burst_name fname ext k2 -> k1 = k2.
Proof.
  unfold burst_name. intros H.
  apply (inj (String.append fname)) in H.
  apply (inj (String.append "-")) in H.
  by apply append_inj_r in H.
Qed.

Section BurstProps.
Variable text_of : Sentence.t float -> py_text.
Variables fname ext : string.
Variable fs : gmap string (list string).

Lemma filed_snoc (key : string) (seen : list (Sentence.t float))
    (s : Sentence.t float) :
  filed text_of key (seen ++ [s])
  = filed text_of key seen ++ (if decide (burst_key s = key)
                       then text_lines (text_of s) else []).
Proof.
  unfold filed, all_lines. rewrite filter_app, fmap_app, concat_app.
  f_equal. rewrite filter_cons, filter_nil.
  destruct (decide (burst_key s = key)); cbn; [|done].
  by rewrite app_nil_r.
Qed.

Lemma filed_unseen (key : string) (seen : list (Sentence.t float)) :
  key ∉ burst_key <$> seen -> filed text_of key seen = [].
Proof.
  intros Hk. unfold filed.
  replace (filter _ seen) with (@nil (Sentence.t float)); [done|].
  symmetry. induction seen as [|s seen IH]; [done|].
  rewrite filter_cons. rewrite fmap_cons, not_elem_of_cons in Hk.
  destruct Hk as [Hne Hk]. rewrite decide_False by done. by apply IH.
Qed.

Lemma burst_step_inv (seen : list (Sentence.t float)) (st : burst_state)
    (s : Sentence.t float) :
  burst_inv text_of fname ext fs seen st ->
  burst_inv text_of fname ext fs (seen ++ [s]) (burst_step text_of fname ext st s).
Proof.
  intros (Hw & Hd & Ho). unfold burst_step.
  set (k := burst_key s). fold (burst_name fname ext k).
  assert (Hin : forall key, key ∈ burst_key <$> seen ++ [s]
                            <-> key ∈ burst_key <$> seen \/ key = k).
  { intros key. rewrite fmap_app, elem_of_app. cbn.
    rewrite list_elem_of_singleton. done. }
  pose proof (Hw k) as Hwk.
  destruct (decide (k ∈ burst_key <$> seen)) as [Hk|Hk]; rewrite Hwk.
  - rewrite Hwk. split; [|split]; cbn [disk writers].
    + intros key. rewrite Hw.
      destruct (decide (key ∈ burst_key <$> seen)) as [Hy|Hy].
      * rewrite decide_True; [done|]. apply Hin. by left.
      * rewrite decide_False; [done|]. rewrite Hin. intros [?| ->]; done.
    + intros key Hkey. rewrite filed_snoc. fold k.
      assert (Hseen : key ∈ burst_key <$> seen).
      { apply Hin in Hkey as [?| ->]; done. }
      destruct (decide (k = key)) as [<-|Hne].
      * rewrite lookup_alter_eq, (Hd k Hseen). cbn.
        by rewrite print_sentence_source_file_app.
      * rewrite lookup_alter_ne, (Hd key Hseen), app_nil_r; [done|].
        intros Heq. by apply burst_name_inj in Heq.
    + intros file Hfile. rewrite lookup_alter_ne.
      * apply Ho. intros key Hkey. apply Hfile, Hin. by left.
      * intros <-. apply (Hfile k); [|done]. apply Hin. by right.
  - cbn [disk writers]. rewrite lookup_insert_eq.
    split; [|split]; cbn [disk writers].
    + intros key. destruct (decide (key = k)) as [->|Hne].
      * rewrite lookup_insert_eq, decide_True; [done|]. apply Hin. by right.
      * rewrite lookup_insert_ne, Hw by done.
        destruct (decide (key ∈ burst_key <$> seen)) as [Hy|Hy].
        -- rewrite decide_True; [done|]. apply Hin. by left.
        -- rewrite decide_False; [done|]. rewrite Hin. intros [?|?]; done.
    + intros key Hkey. rewrite filed_snoc. fold k.
      destruct (decide (k = key)) as [<-|Hne].
      * rewrite lookup_alter_eq, lookup_insert_eq. cbn.
        by rewrite print_sentence_source_file_app, filed_unseen.
      * assert (Hseen : key ∈ burst_key <$> seen).
        { apply Hin in Hkey as [?| ->]; done. }
        assert (Hn : burst_name fname ext k <> burst_name fname ext key).
        { intros Heq. by apply burst_name_inj in Heq. }
        by rewrite lookup_alter_ne, lookup_insert_ne, (Hd key Hseen), app_nil_r.
    + intros file Hfile.
      assert (Hn : burst_name fname ext k <> file).
      { intros <-. apply (Hfile k); [|done]. apply Hin. by right. }
      rewrite lookup_alter_ne, lookup_insert_ne by done.
      apply Ho. intros key Hkey. apply Hfile, Hin. by left.
Qed.

Lemma burst_foldl_inv (sentences : list (Sentence.t float)) :
  burst_inv text_of fname ext fs sentences
    (foldl (burst_step text_of fname ext)
       {| writers := ∅; disk := fs |} sentences).
Proof.
  induction sentences as [|s seen IH] using rev_ind.
  - cbn [foldl]. split; [|split]; cbn [writers disk].
    + intros key. rewrite lookup_empty, decide_False; [done|].
      apply not_elem_of_nil.
    + intros key Hkey. by apply elem_of_nil in Hkey.
    + done.
  - rewrite foldl_app. cbn [foldl]. by apply burst_step_inv.
Qed.
End BurstProps.

(** X17. After [burst], for every key of the stream (a sentence's
    identifier, or [other] when it has none or an empty one) the file
    [fname-key.ext] holds exactly the lines of that key's sentences, in
    the order of the stream; any other file is as it was. *)
Theorem burst_partition (text_of : Sentence.t float -> py_text)
    (splitext : string -> string * string)
    (sentences : list (Sentence.t float)) (source : string)
    (dest : option string) (fs : gmap string (list string)) :
  let target := if opt_str_truthy dest then default source dest else source in
  let out := burst text_of splitext sentences source dest fs in
  let name := burst_name (fst (splitext target)) (snd (splitext target)) in
  (forall key, key ∈ burst_key <$> sentences ->
     out !! name key
     = Some (all_lines text_of
               (filter (fun s => burst_key s = key) sentences)))
  /\ (forall file, (forall key, key ∈ burst_key <$> sentences ->
                                file <> name key) ->
        out !! file = fs !! file).
Proof.
  intros target out name. subst out name. unfold burst. fold target.
  destruct (splitext target) as [fname ext]. cbn [fst snd].
  destruct (burst_foldl_inv text_of fname ext fs sentences) as (_ & Hd & Ho).
  split; [apply Hd|apply Ho].
Qed.

(** ** The outcome of [info] *)

Lemma info_consume_outcome (individual show_map : bool) (st : info_state)
    (s : Sentence.t float) :
  info_paired st ->
  if individual && negb (voyage_complete s)
  then info_consume individual show_map st s = Raise AttributeError
  else exists st', info_consume individual show_map st s = Ok st'
                   /\ info_paired st'.
Proof.
  intros [Hfleet Hmap]. unfold info_consume.
  destruct (SentencesInfo_add_step (sentences_info st) s Hfleet)
    as (si & -> & _ & _ & _ & Hfleet').
  cbn [mbind result_bind].
  assert (Hmi : exists mi,
            (if show_map then
               match Sentence.location s with
               | Some loc => DensityMap.add (map_info st) loc
               | None => Ok (map_info st)
               end
             else Ok (map_info st)) = Ok mi
            /\ geo_paired (DensityMap.geo_info mi)).
  { destruct show_map; [|by eexists].
    destruct (Sentence.location s) as [loc|]; [|by eexists].
    unfold DensityMap.add. destruct Hmap as [Hlon Hlat].
    destruct (GeoInfo_add_paired _ loc Hlon Hlat) as (g' & -> & Hlon' & Hlat').
    by eexists. }
  destruct Hmi as (mi & -> & Hmap'). cbn [mbind result_bind].
  destruct individual; cbn [andb].
  - destruct (voyage_complete s) eqn:Hc; cbn [negb].
    + destruct (SenderInfo_add_complete
                  (default SenderInfo.init
                     (sender_info st !! Sentence.getitem s "mmsi")) s Hc)
        as (sender & -> & _).
      by eexists.
    + by rewrite (SenderInfo_add_incomplete _ s Hc).
  - by eexists.
Qed.

Lemma info_consume_all_outcome (individual show_map : bool)
    (l : list (Sentence.t float)) (st : info_state) :
  info_paired st ->
  if individual && negb (forallb voyage_complete l)
  then info_consume_all individual show_map st l = Raise AttributeError
  else exists st', info_consume_all individual show_map st l = Ok st'.
Proof.
  revert st. induction l as [|s l IH]; intros st Hst.
  - cbn. rewrite andb_false_r. by eexists.
  - cbn [info_consume_all forallb].
    pose proof (info_consume_outcome individual show_map st s Hst) as Hs.
    destruct individual; cbn [andb] in *.
    + destruct (voyage_complete s); cbn [negb andb] in *.
      * destruct Hs as (st' & -> & Hst'). apply (IH st' Hst').
      * by rewrite Hs.
    + destruct Hs as (st' & -> & Hst'). apply (IH st' Hst').
Qed.

(** X18. Under [--individual], a voyage sentence without its ship name
    or destination anywhere in the stream makes [info] raise
    [AttributeError] before it has printed anything; in every other case
    the loop gets through the whole stream and the reports are rendered
    from its state. *)
Theorem info_fails_before_printing (str_float : float -> string)
    (sentences : list (Sentence.t float)) (individual show_map : bool)
    (s : sink) :
  if individual && negb (forallb voyage_complete sentences)
  then info str_float sentences individual show_map s
       = (Raise AttributeError, s)
  else exists st,
         info_consume_all individual show_map info_init sentences = Ok st
         /\ info str_float sentences individual show_map s
            = wild_disregard_for BrokenPipeError
                (info_render str_float individual show_map st) s.
Proof.
  pose proof (info_consume_all_outcome individual show_map sentences
                info_init) as H.
  unfold info, mbind, IO_bind, io_lift.
  destruct (individual && negb (forallb voyage_complete sentences)).
  - by rewrite H.
  - destruct H as (st & ->); [done|]. by exists st.
Qed.

(** ** The reports *)

Lemma for_each_lines {A} (l : list A) (body : A -> IO unit)
    (line : A -> string) (w : list string) :
  (forall x w', x ∈ l ->
     body x (Sink w' None) = (Ok tt, Sink (w' ++ [line x]) None)) ->
  for_each l body (Sink w None) = (Ok tt, Sink (w ++ (line <$> l)) None).
Proof.
  revert w. induction l as [|x l IH]; intros w Hbody.
  - cbn. by rewrite app_nil_r.
  - cbn [for_each]. unfold mbind, IO_bind.
    rewrite (Hbody x w) by apply list_elem_of_here.
    rewrite IH; [by rewrite fmap_cons, <- app_assoc|].
    intros y w' Hy. apply Hbody. by apply list_elem_of_further.
Qed.

Lemma print_healthy (line : string) (w : list string) :
  print line (Sink w None) = (Ok tt, Sink (w ++ [line]) None).
Proof. reflexivity. Qed.

Lemma length_sorted_keys `{Countable K} {A} (R : relation K)
    `{!RelDecision R} (m : gmap K A) :
  length (merge_sort R (map_to_list m).*1) = size m.
Proof.
  rewrite (Permutation_length (merge_sort_Permutation R _)).
  by rewrite length_fmap, length_map_to_list.
Qed.

(** X19. The report of a sender never fails, whatever the aggregator
    holds: it writes the identifier, the count, the types, and then one
    line for each field stored. *)
Theorem SenderInfo_report_lines (si : SenderInfo.t) (w : list string) :
  exists types field_lines,
    SenderInfo.report si (Sink w None)
    = (Ok tt,
       Sink (w ++ [format_opt id (SenderInfo.mmsi si) +:+ ":";
                   "    sentences: "
                     +:+ str_int (SenderInfo.sentence_count si);
                   "        types: " +:+ types] ++ field_lines) None)
    /\ length field_lines = size (Fields.values (SenderInfo.fields si)).
Proof.
  unfold SenderInfo.report. unfold mbind at 1 2 3, IO_bind.
  rewrite !print_healthy.
  eexists _, ((fun field =>
     "  " +:+ pad_left 11 field +:+ ": "
     +:+ default "" (Fields.values (SenderInfo.fields si) !! field))
    <$> merge_sort str_le (Fields.iter (SenderInfo.fields si))).
  split.
  - rewrite (for_each_lines _ _
       (fun field =>
          "  " +:+ pad_left 11 field +:+ ": "
          +:+ default "" (Fields.values (SenderInfo.fields si) !! field))).
    + rewrite <- !app_assoc. reflexivity.
    + intros field w' Hin.
      rewrite (merge_sort_Permutation str_le) in Hin.
      unfold Fields.iter in Hin.
      apply list_elem_of_fmap in Hin as ([k v] & -> & Hkv).
      apply elem_of_map_to_list in Hkv. cbn [fst].
      unfold mbind, IO_bind, io_lift, Fields.getitem. rewrite Hkv.
      reflexivity.
  - rewrite length_fmap. apply length_sorted_keys.
Qed.

(** X20. The report of the fleet never fails: it writes the summary and
    the heading, one line for each type counted, an empty line and the
    two lines of the bounding box. *)
Theorem SentencesInfo_report_lines {V} `{PyOrd V} (str_V : V -> string)
    (st : SentencesInfo.t V) (w : list string) :
  exists type_lines top_left bottom_right,
    SentencesInfo.report str_V st (Sink w None)
    = (Ok tt,
       Sink (w ++ ["Found "
                     +:+ str_int
                           (Z.of_nat (size (SentencesInfo.sender_counts st)))
                     +:+ " senders in "
                     +:+ str_int (SentencesInfo.sentence_count st)
                     +:+ " sentences.";
                   "   type counts:"]
               ++ type_lines ++ [""; top_left; bottom_right]) None)
    /\ length type_lines = size (SentencesInfo.type_counts st).
Proof.
  unfold SentencesInfo.report, GeoInfo.report. unfold mbind, IO_bind.
  rewrite !print_healthy.
  match goal with
  | |- context [for_each ?l ?body (Sink ?w0 None)] =>
      rewrite (for_each_lines l body
                 (fun i =>
                    "                " +:+ pad_left 2 (str_int i) +:+ " "
                    +:+ pad_left 8
                          (str_int
                             (count_of (SentencesInfo.type_counts st) i)))
                 w0)
        by (intros; apply print_healthy)
  end.
  rewrite !print_healthy.
  eexists ((fun i =>
              "                " +:+ pad_left 2 (str_int i) +:+ " "
              +:+ pad_left 8
                    (str_int (count_of (SentencesInfo.type_counts st) i)))
           <$> merge_sort Z.le (map_to_list (SentencesInfo.type_counts st)).*1),
    _, _.
  split.
  - rewrite <- !app_assoc. reflexivity.
  - rewrite length_fmap. apply length_sorted_keys.
Qed.

(** ** Senders without identifier *)

Lemma sorted_senders_None (keys : list (option string)) :
  None ∈ keys -> (2 <= length keys)%nat ->
  sorted_senders keys = Raise TypeError.
Proof.
  intros Hin Hlen. unfold sorted_senders.
  assert (Hall : forallb is_not_None keys = false).
  { apply not_true_is_false. intros Hall.
    rewrite forallb_forall in Hall.
    by specialize (Hall None ltac:(by apply list_elem_of_In)). }
  rewrite Hall. destruct keys as [|a [|b keys]]; cbn in Hlen; [lia|lia|done].
Qed.

Lemma two_keys `{Countable K} {A} (m : gmap K A) (k1 k2 : K) :
  is_Some (m !! k1) -> is_Some (m !! k2) -> k1 <> k2 ->
  (2 <= length (map_to_list m).*1)%nat.
Proof.
  intros [a1 H1] [a2 H2] Hne.
  apply elem_of_map_to_list in H1, H2.
  destruct (map_to_list m) as [|x [|y r]]; cbn; [| |lia].
  - by apply elem_of_nil in H1.
  - apply list_elem_of_singleton in H1, H2. congruence.
Qed.

Lemma SentencesInfo_report_Ok {V} `{PyOrd V} (str_V : V -> string)
    (st : SentencesInfo.t V) (w : list string) :
  exists lines,
    SentencesInfo.report str_V st (Sink w None)
    = (Ok tt, Sink (w ++ lines) None).
Proof.
  unfold SentencesInfo.report, GeoInfo.report. unfold mbind, IO_bind.
  rewrite !print_healthy.
  match goal with
  | |- context [for_each ?l ?body (Sink ?w0 None)] =>
      rewrite (for_each_lines l body
                 (fun i =>
                    "                " +:+ pad_left 2 (str_int i) +:+ " "
                    +:+ pad_left 8
                          (str_int
                             (count_of (SentencesInfo.type_counts st) i)))
                 w0)
        by (intros; apply print_healthy)
  end.
  rewrite !print_healthy.
  eexists (_ :: _
           :: ((fun i =>
                  "                " +:+ pad_left 2 (str_int i) +:+ " "
                  +:+ pad_left 8
                        (str_int (count_of (SentencesInfo.type_counts st) i)))
               <$> merge_sort Z.le
                     (map_to_list (SentencesInfo.type_counts st)).*1)
           ++ [_; _; _]).
  rewrite <- !app_assoc. reflexivity.
Qed.

(** X21. Under [--individual] (without [--map]), a stream that [info]
    gets through and that has both a sentence without identifier and a
    sentence with one ends in [TypeError]: what [info] has written then
    is the report of the fleet aggregator of the stream, line for line,
    and nothing after it; sorting the senders fails and no sender is
    reported. *)
Theorem info_individual_unidentified_sender (str_float : float -> string)
    (sentences : list (Sentence.t float)) (s1 s2 : Sentence.t float)
    (w : list string) :
  forallb voyage_complete sentences = true ->
  s1 ∈ sentences -> s2 ∈ sentences ->
  Sentence.getitem s1 "mmsi" = None ->
  Sentence.getitem s2 "mmsi" <> None ->
  exists fleet lines,
    SentencesInfo.add_all SentencesInfo.init sentences = Ok fleet
    /\ SentencesInfo.report str_float fleet (Sink w None)
       = (Ok tt, Sink (w ++ lines) None)
    /\ info str_float sentences true false (Sink w None)
       = (Raise TypeError, Sink (w ++ lines) None).
Proof.
  intros Hall Hs1 Hs2 Hm1 Hm2.
  pose proof (info_consume_all_outcome true false sentences info_init) as Hc.
  rewrite Hall in Hc. cbn [negb andb] in Hc.
  destruct Hc as [st Hst]; [done|].
  destruct (info_consume_all_inv true false sentences st Hst)
    as (Hfleet & _ & Hsenders).
  assert (Hkey : forall s, s ∈ sentences ->
            is_Some (sender_info st !! Sentence.getitem s "mmsi")).
  { intros s Hs. specialize (Hsenders (Sentence.getitem s "mmsi")).
    destruct (sender_info st !! Sentence.getitem s "mmsi") as [si|]; [done|].
    destruct Hsenders as [?|Hnil]; [done|].
    assert (Hin : s ∈ of_sender (Sentence.getitem s "mmsi") sentences).
    { unfold of_sender. by apply list_elem_of_filter. }
    rewrite Hnil in Hin. by apply elem_of_nil in Hin. }
  pose proof (Hkey s1 Hs1) as H1. pose proof (Hkey s2 Hs2) as H2.
  rewrite Hm1 in H1.
  assert (Hsorted : sorted_senders (map_to_list (sender_info st)).*1
                    = Raise TypeError).
  { apply sorted_senders_None.
    - destruct H1 as [si H1]. apply list_elem_of_fmap.
      exists (None, si). split; [done|]. by apply elem_of_map_to_list.
    - apply (two_keys _ None (Sentence.getitem s2 "mmsi")); [done|done|].
      congruence. }
  destruct (SentencesInfo_report_Ok str_float (sentences_info st) w)
    as (lines & Hrep).
  exists (sentences_info st), lines. split; [done|]. split; [done|].
  unfold info, mbind at 1, IO_bind, io_lift. rewrite Hst.
  unfold wild_disregard_for, info_render, mbind, IO_bind.
  rewrite Hrep, Hsorted. cbn. reflexivity.
Qed.

Lemma info_individual_unidentified_sender_witness :
  exists fleet lines,
    SentencesInfo.add_all SentencesInfo.init
      [Sentence.Build 1 ∅ (Some (10, 20)%float); position "A" 10.5 20.5]
    = Ok fleet
    /\ SentencesInfo.report (fun _ => "?") fleet (Sink [] None)
       = (Ok tt, Sink ([] ++ lines) None)
    /\ info (fun _ => "?")
         [Sentence.Build 1 ∅ (Some (10, 20)%float); position "A" 10.5 20.5]
         true false (Sink [] None)
       = (Raise TypeError, Sink ([] ++ lines) None).
Proof.
  apply (info_individual_unidentified_sender (fun _ => "?") _
           (Sentence.Build 1 ∅ (Some (10, 20)%float))
           (position "A" 10.5 20.5)).
  - reflexivity.
  - apply list_elem_of_here.
  - apply list_elem_of_further, list_elem_of_here.
  - reflexivity.
  - discriminate.
Defined.

(** The same stream, as it comes out: the seven lines of the fleet
    report, then the [TypeError]. *)
Example info_unidentified_sender_output :
  info (fun _ => "?")
    [Sentence.Build 1 ∅ (Some (10, 20)%float); position "A" 10.5 20.5]
    true false (Sink [] None)
  = (Raise TypeError,
     Sink ["Found 2 senders in 2 sentences."; "   type counts:";
           "                 1        2"; "";
           "      top left: ?, ?"; "  bottom right: ?, ?"] None).
Proof. vm_compute. reflexivity. Qed.
